(** * lobanovo-bot mini-app: frame reader, chat store and page handlers

    A shallow embedding of the TypeScript client
    (api/client.ts, api/endpoints.ts, store/chat.ts, pages/Chat.tsx,
    pages/Audit.tsx) and the properties of its streaming reader, its
    message store and its submit handlers.

    JavaScript strings are sequences of UTF-16 code units, and [length],
    [slice], [trim], [split] and [startsWith] all count code units, so a
    string is modelled as a list of code units ([N]).  Byte chunks read
    from the response body are lists of [Byte.byte]. *)

From Stdlib Require Import NArith ZArith Strings.String Strings.Ascii Strings.Byte Lia.
From stdpp Require Import base tactics option numbers list countable gmap.

#[local] Set Warnings "-notation-for-abbreviation,-register-all".

Notation jsstring := (list N) (only parsing).

(** ** JavaScript string primitives used by the client *)
Module JSString.
Local Open Scope N_scope.

(** "\n" *)
Definition LF : N := 10.

(** [s.split(sep)] for a one-unit separator: never returns the empty
    array, [split sep [] = [[]]]. *)
Fixpoint split (sep : N) (s : jsstring) : list jsstring :=
  match s with
  | [] => [[]]
  | c :: r =>
      if c =? sep then [] :: split sep r
      else match split sep r with
           | l :: ls => (c :: l) :: ls
           | [] => [[c]]
           end
  end.

(** [s.startsWith(p)] *)
Fixpoint startsWith (p s : jsstring) : bool :=
  match p, s with
  | [], _ => true
  | _ :: _, [] => false
  | a :: p', b :: s' => (a =? b) && startsWith p' s'
  end.

(** [s.slice(n)] for a non-negative [n] *)
Definition slice (n : nat) (s : jsstring) : jsstring := drop n s.

(** WhiteSpace and LineTerminator code points of ECMAScript, the ones
    [String.prototype.trim] strips. *)
Definition is_space (c : N) : bool :=
  (c =? 0x9) || (c =? 0xA) || (c =? 0xB) || (c =? 0xC) || (c =? 0xD)
  || (c =? 0x20) || (c =? 0xA0) || (c =? 0x1680)
  || ((0x2000 <=? c) && (c <=? 0x200A))
  || (c =? 0x2028) || (c =? 0x2029) || (c =? 0x202F) || (c =? 0x205F)
  || (c =? 0x3000) || (c =? 0xFEFF).

Fixpoint trimStart (s : jsstring) : jsstring :=
  match s with
  | [] => []
  | c :: r => if is_space c then trimStart r else s
  end.

Definition trimEnd (s : jsstring) : jsstring := rev (trimStart (rev s)).

(** [s.trim()] *)
Definition trim (s : jsstring) : jsstring := trimEnd (trimStart s).

(** A string is truthy when it is not empty. *)
Definition truthy (s : jsstring) : bool :=
  match s with [] => false | _ :: _ => true end.

(** [a || b] on strings *)
Definition or_else (a b : jsstring) : jsstring := if truthy a then a else b.

End JSString.

(** ** TextDecoder: the streaming UTF-8 decoder of the Encoding standard

    [new TextDecoder()] is a UTF-8 decoder in replacement mode that
    strips one leading byte order mark.  [decode(value, {stream: true})]
    never flushes, so an incomplete sequence at the end of a chunk is
    carried over to the next call. *)
Module TextDecoder.
Local Open Scope N_scope.

Record t := mk {
  code_point : N;
  bytes_seen : N;
  bytes_needed : N;
  lower : N;
  upper : N;
  bom_seen : bool
}.

Definition new : t := mk 0 0 0 0x80 0xBF false.

Definition in_range (lo hi b : N) : bool := (lo <=? b) && (b <=? hi).

(** The handler of the decoder when no continuation byte is awaited. *)
Definition lead (bom : bool) (b : N) : t * list N :=
  if b <=? 0x7F then (mk 0 0 0 0x80 0xBF bom, [b])
  else if in_range 0xC2 0xDF b then
    (mk (N.land b 0x1F) 0 1 0x80 0xBF bom, [])
  else if in_range 0xE0 0xEF b then
    (mk (N.land b 0xF) 0 2
        (if b =? 0xE0 then 0xA0 else 0x80)
        (if b =? 0xED then 0x9F else 0xBF) bom, [])
  else if in_range 0xF0 0xF4 b then
    (mk (N.land b 0x7) 0 3
        (if b =? 0xF0 then 0x90 else 0x80)
        (if b =? 0xF4 then 0x8F else 0xBF) bom, [])
  else (mk 0 0 0 0x80 0xBF bom, [0xFFFD]).

(** One byte through the handler; the result lists the code points it
    emits.  A byte that breaks a sequence emits U+FFFD and is handled
    again as a lead byte. *)
Definition handler (d : t) (b : N) : t * list N :=
  if bytes_needed d =? 0 then lead (bom_seen d) b
  else if negb (in_range (lower d) (upper d) b) then
    let '(d', out) := lead (bom_seen d) b in (d', 0xFFFD :: out)
  else
    let cp := N.lor (N.shiftl (code_point d) 6) (N.land b 0x3F) in
    if bytes_seen d + 1 =? bytes_needed d
    then (mk 0 0 0 0x80 0xBF (bom_seen d), [cp])
    else (mk cp (bytes_seen d + 1) (bytes_needed d) 0x80 0xBF (bom_seen d), []).

(** The first code point of the whole stream is dropped when it is the
    byte order mark. *)
Definition strip_bom (d : t) (out : list N) : t * list N :=
  match out with
  | [] => (d, [])
  | c :: r =>
      let d' := mk (code_point d) (bytes_seen d) (bytes_needed d)
                   (lower d) (upper d) true in
      if bom_seen d then (d', out)
      else (d', if c =? 0xFEFF then r else out)
  end.

(** A code point as UTF-16 code units. *)
Definition utf16 (cp : N) : jsstring :=
  if cp <? 0x10000 then [cp]
  else let c := cp - 0x10000 in
       [0xD800 + N.shiftr c 10; 0xDC00 + N.land c 0x3FF].

Definition step (d : t) (b : byte) : t * jsstring :=
  let '(d1, out) := handler d (Byte.to_N b) in
  let '(d2, out') := strip_bom d1 out in
  (d2, concat (map utf16 out')).

(** [decoder.decode(value, {stream: true})] *)
Fixpoint decode (d : t) (value : list byte) : t * jsstring :=
  match value with
  | [] => (d, [])
  | b :: r =>
      let '(d1, s1) := step d b in
      let '(d2, s2) := decode d1 r in
      (d2, s1 ++ s2)
  end.

End TextDecoder.

(** A string literal of this file (UTF-8 in the source) as a JavaScript
    string. *)
Definition js (s : string) : jsstring :=
  snd (TextDecoder.decode TextDecoder.new (list_byte_of_string s)).

(** The same with every apostrophe read as a double quote, to write
    JSON payloads. *)
Definition jq (s : string) : jsstring :=
  map (fun c => if N.eqb c 39 then 34%N else c) (js s).

(** ** JSON.parse

    The grammar of ECMA-404 as [JSON.parse] accepts it, over code units.
    A number is kept as the decimal [m * 10^e] it denotes. *)
Module JSON.
Import JSString.
Local Open Scope N_scope.

Inductive value :=
| Null
| Bool (b : bool)
| Num (m e : Z)
| Str (s : jsstring)
| Arr (l : list value)
| Obj (l : list (jsstring * value)).

Definition is_ws (c : N) : bool :=
  (c =? 0x9) || (c =? 0xA) || (c =? 0xD) || (c =? 0x20).

Fixpoint skip_ws (s : jsstring) : jsstring :=
  match s with
  | [] => []
  | c :: r => if is_ws c then skip_ws r else s
  end.

Definition between (lo hi c : N) : bool := (lo <=? c) && (c <=? hi).

Definition hex_digit (c : N) : option N :=
  if between 48 57 c then Some (c - 48)
  else if between 65 70 c then Some (c - 55)
  else if between 97 102 c then Some (c - 87)
  else None.

Definition hex4 (a b c d : N) : option N :=
  a' ← hex_digit a; b' ← hex_digit b; c' ← hex_digit c; d' ← hex_digit d;
  Some (((a' * 16 + b') * 16 + c') * 16 + d').

(** The unit a one-letter escape stands for: quote, backslash, slash,
    b, f, n, r, t. *)
Definition escape (e : N) : option N :=
  if e =? 34 then Some 34
  else if e =? 92 then Some 92
  else if e =? 47 then Some 47
  else if e =? 98 then Some 8
  else if e =? 102 then Some 12
  else if e =? 110 then Some 10
  else if e =? 114 then Some 13
  else if e =? 116 then Some 9
  else None.

(** The rest of a string after its opening quote: the units it denotes
    and the input after its closing quote. *)
Fixpoint string_tail (s : jsstring) : option (jsstring * jsstring) :=
  match s with
  | [] => None
  | c :: r =>
      if c =? 34 then Some ([], r)
      else if c <? 0x20 then None
      else if c =? 92 then
        match r with
        | [] => None
        | e :: r1 =>
            if e =? 117 then
              match r1 with
              | h1 :: h2 :: h3 :: h4 :: r2 =>
                  match hex4 h1 h2 h3 h4, string_tail r2 with
                  | Some u, Some (t, rest) => Some (u :: t, rest)
                  | _, _ => None
                  end
              | _ => None
              end
            else
              match escape e, string_tail r1 with
              | Some u, Some (t, rest) => Some (u :: t, rest)
              | _, _ => None
              end
        end
      else
        match string_tail r with
        | Some (t, rest) => Some (c :: t, rest)
        | None => None
        end
  end.

Definition is_digit (c : N) : bool := between 48 57 c.

(** The longest prefix of digits, and the rest. *)
Fixpoint digits (s : jsstring) : list N * jsstring :=
  match s with
  | [] => ([], [])
  | c :: r =>
      if is_digit c then let '(ds, rest) := digits r in (c :: ds, rest)
      else ([], s)
  end.

Definition decimal (ds : list N) : Z :=
  fold_left (fun acc c => (acc * 10 + Z.of_N (c - 48))%Z) ds 0%Z.

Definition nonempty_digits (s : jsstring) : option (list N * jsstring) :=
  match digits s with
  | ([], _) => None
  | (ds, rest) => Some (ds, rest)
  end.

(** The integer part: a single 0, or digits that do not start with 0. *)
Definition int_part (s : jsstring) : option (list N * jsstring) :=
  match s with
  | c :: r => if c =? 48 then Some ([c], r) else nonempty_digits s
  | [] => None
  end.

Definition frac_part (s : jsstring) : option (list N * jsstring) :=
  match s with
  | c :: r => if c =? 46 then nonempty_digits r else Some ([], s)
  | [] => Some ([], s)
  end.

Definition exp_part (s : jsstring) : option (Z * jsstring) :=
  match s with
  | c :: r =>
      if (c =? 101) || (c =? 69) then
        let '(sg, r1) :=
          match r with
          | x :: r' => if x =? 45 then ((-1)%Z, r')
                       else if x =? 43 then (1%Z, r') else (1%Z, r)
          | [] => (1%Z, r)
          end in
        '(ds, rest) ← nonempty_digits r1; Some ((sg * decimal ds)%Z, rest)
      else Some (0%Z, s)
  | [] => Some (0%Z, s)
  end.

Definition number (s : jsstring) : option (value * jsstring) :=
  let '(sg, s1) :=
    match s with
    | c :: r => if c =? 45 then ((-1)%Z, r) else (1%Z, s)
    | [] => (1%Z, s)
    end in
  '(ip, s2) ← int_part s1;
  '(fp, s3) ← frac_part s2;
  '(ex, s4) ← exp_part s3;
  Some (Num (sg * decimal (ip ++ fp))%Z (ex - Z.of_nat (length fp))%Z, s4).

(** [true], [false], [null] as code units. *)
Definition lit_true : jsstring := [116; 114; 117; 101].
Definition lit_false : jsstring := [102; 97; 108; 115; 101].
Definition lit_null : jsstring := [110; 117; 108; 108].

Section Composite.
(** The parser of one value, at the nesting depth below. *)
Variable pv : jsstring -> option (value * jsstring).

(** Array elements after the opening bracket, up to the closing one. *)
Fixpoint elements (fuel : nat) (s : jsstring) : option (list value * jsstring) :=
  match fuel with
  | O => None
  | S f =>
      '(v, r) ← pv s;
      match skip_ws r with
      | c :: r' =>
          if c =? 44 then '(vs, rest) ← elements f r'; Some (v :: vs, rest)
          else if c =? 93 then Some ([v], r')
          else None
      | [] => None
      end
  end.

(** Object members after the opening brace, up to the closing one. *)
Fixpoint members (fuel : nat) (s : jsstring)
  : option (list (jsstring * value) * jsstring) :=
  match fuel with
  | O => None
  | S f =>
      match skip_ws s with
      | q :: r0 =>
          if q =? 34 then
            '(k, r1) ← string_tail r0;
            match skip_ws r1 with
            | c :: r2 =>
                if c =? 58 then
                  '(v, r3) ← pv r2;
                  match skip_ws r3 with
                  | d :: r4 =>
                      if d =? 44 then
                        '(kvs, rest) ← members f r4; Some ((k, v) :: kvs, rest)
                      else if d =? 125 then Some ([(k, v)], r4)
                      else None
                  | [] => None
                  end
                else None
            | [] => None
            end
          else None
      | [] => None
      end
  end.
End Composite.

Fixpoint parse_value (fuel : nat) (s : jsstring) : option (value * jsstring) :=
  match fuel with
  | O => None
  | S f =>
      match skip_ws s with
      | [] => None
      | c :: r =>
          if c =? 123 then
            match skip_ws r with
            | d :: r' =>
                if d =? 125 then Some (Obj [], r')
                else '(kvs, rest) ← members (parse_value f) f r; Some (Obj kvs, rest)
            | [] => None
            end
          else if c =? 91 then
            match skip_ws r with
            | d :: r' =>
                if d =? 93 then Some (Arr [], r')
                else '(vs, rest) ← elements (parse_value f) f r; Some (Arr vs, rest)
            | [] => None
            end
          else if c =? 34 then
            '(str, rest) ← string_tail r; Some (Str str, rest)
          else if startsWith lit_true (c :: r) then Some (Bool true, drop 4 (c :: r))
          else if startsWith lit_false (c :: r) then Some (Bool false, drop 5 (c :: r))
          else if startsWith lit_null (c :: r) then Some (Null, drop 4 (c :: r))
          else number (c :: r)
      end
  end.

(** [JSON.parse(s)]; [None] stands for the SyntaxError it throws. *)
Definition parse (s : jsstring) : option value :=
  '(v, rest) ← parse_value (S (length s)) s;
  match skip_ws rest with [] => Some v | _ :: _ => None end.

(** [v[k]] for an own property of a parsed object; a repeated key keeps
    its last value.  [None] is [undefined]. *)
Fixpoint assoc (k : jsstring) (l : list (jsstring * value)) : option value :=
  match l with
  | [] => None
  | (k', v) :: r =>
      match assoc k r with
      | Some v' => Some v'
      | None => if decide (k' = k) then Some v else None
      end
  end.

Definition get (k : jsstring) (v : value) : option value :=
  match v with Obj l => assoc k l | _ => None end.

(** The integer a number denotes, when it denotes one. *)
Definition to_integer (m e : Z) : option Z :=
  if (0 <=? e)%Z then Some (m * 10 ^ e)%Z
  else let d := (10 ^ (- e))%Z in
       if (m mod d =? 0)%Z then Some (m / d)%Z else None.

End JSON.

(** ** api/client.ts: the streaming reader *)
Module Client.
Import JSString.

(** The body of a response as [reader.read()] delivers it: the chunks in
    order, then either [done] or a rejected read. *)
Record ReadableStream := {
  chunks : list (list byte);
  read_fails : bool
}.

Record Response := {
  ok : bool;
  body : option ReadableStream
}.

(** What [fetch] settles to. *)
Inductive fetch_result :=
| Rejected
| Resolved (res : Response).

(** How a generator ends: it returns, or an exception leaves it. *)
Inductive completion := Returned | Threw.

(** [Array.prototype.pop]: the array without its last element, and that
    element ([None] is [undefined]). *)
Definition pop {A} (l : list A) : list A * option A := (removelast l, last l).

(** "data: " *)
Definition data_prefix : jsstring := [100; 97; 116; 97; 58; 32]%N.

Section ApiStream.
Context {T : Type}.
(** [JSON.parse(s) as T]; [None] when it throws. *)
Variable JSON_parse : jsstring -> option T.

(** The body of [for (const line of lines)]: what one line yields. *)
Definition on_line (line : jsstring) : list T :=
  if startsWith data_prefix line then
    match JSON_parse (slice 6 line) with
    | Some data => [data]
    | None => []
    end
  else [].

(** The [while (true)] loop, one iteration per chunk read. *)
Fixpoint read_loop (decoder : TextDecoder.t) (buffer : jsstring)
    (cs : list (list byte)) : list T :=
  match cs with
  | [] => []
  | value :: rest =>
      let '(decoder, text) := TextDecoder.decode decoder value in
      let buffer := buffer ++ text in
      let '(lines, popped) := pop (split LF buffer) in
      let buffer := or_else (default [] popped) [] in
      flat_map on_line lines ++ read_loop decoder buffer rest
  end.

(** [apiStream(path, body)] against the response the request gets:
    the values yielded, in order, and how the generator ends. *)
Definition apiStream (r : fetch_result) : list T * completion :=
  match r with
  | Rejected => ([], Threw)
  | Resolved res =>
      if negb (ok res) then ([], Threw)
      else match body res with
           | None => ([], Returned)
           | Some rd =>
               (read_loop TextDecoder.new [] (chunks rd),
                if read_fails rd then Threw else Returned)
           end
  end.

(** The lines of a text that are closed by a newline. *)
Definition complete_lines (text : jsstring) : list jsstring :=
  removelast (split LF text).

(** The unterminated rest of a text after its last newline. *)
Definition last_line (text : jsstring) : jsstring :=
  default [] (last (split LF text)).

Definition frames_of_text (text : jsstring) : list T :=
  flat_map on_line (complete_lines text).
End ApiStream.

(** The text a decoder produces for the chunks of a stream, joined. *)
Fixpoint decode_chunks (d : TextDecoder.t) (cs : list (list byte)) : jsstring :=
  match cs with
  | [] => []
  | value :: rest =>
      let '(d', text) := TextDecoder.decode d value in
      text ++ decode_chunks d' rest
  end.

(** The text of a whole body. *)
Definition body_text (cs : list (list byte)) : jsstring :=
  decode_chunks TextDecoder.new cs.

End Client.

(** ** api/endpoints.ts: the events of the streaming endpoints *)

Module Event.

(** [{ type: string; content?: string; message_id?: number }]; an absent
    field is [None]. *)
Record StreamEvent := {
  type : jsstring;
  content : option jsstring;
  message_id : option Z
}.

End Event.
Notation StreamEvent := Event.StreamEvent.

Definition s_type : jsstring := Eval vm_compute in js "type".
Definition s_content : jsstring := Eval vm_compute in js "content".
Definition s_message_id : jsstring := Eval vm_compute in js "message_id".
Definition s_token : jsstring := Eval vm_compute in js "token".
Definition s_done : jsstring := Eval vm_compute in js "done".
Definition s_error : jsstring := Eval vm_compute in js "error".

(** A parsed value seen at the declared type of the events, when it
    inhabits that type (the cast [as T] of the reader checks nothing). *)
Definition event_of_json (v : JSON.value) : option StreamEvent :=
  match v, JSON.get s_type v with
  | JSON.Obj _, Some (JSON.Str t) =>
      c ← match JSON.get s_content v with
          | None => Some None
          | Some (JSON.Str s) => Some (Some s)
          | Some _ => None
          end;
      i ← match JSON.get s_message_id v with
          | None => Some None
          | Some (JSON.Num m e) => Some <$> JSON.to_integer m e
          | Some _ => None
          end;
      Some {| Event.type := t; Event.content := c; Event.message_id := i |}
  | _, _ => None
  end.

(** The requests the pages issue. *)
Inductive Request :=
| PostChat (message : jsstring)
| PostChatFeedback (messageId : Z) (rating : Z)
| PostAudit (text : jsstring).

(** [sendChatMessage] and [sendAudit]: the reader on the response to a
    POST of the text, at the declared type of the events. *)
Module Endpoints.
Section Wrappers.
(** The response [fetch] gets for a request. *)
Variable fetch : Request -> Client.fetch_result.
(** [JSON.parse(s) as { type; content?; message_id? }] *)
Variable JSON_parse : jsstring -> option StreamEvent.

Definition sendChatMessage (message : jsstring)
  : list StreamEvent * Client.completion :=
  Client.apiStream JSON_parse (fetch (PostChat message)).

Definition sendAudit (text : jsstring) : list StreamEvent * Client.completion :=
  Client.apiStream JSON_parse (fetch (PostAudit text)).
End Wrappers.

(** [JSON.parse] on the payloads that inhabit the declared type of the
    events; the other payloads are outside this typed reading. *)
Definition parse_event (s : jsstring) : option StreamEvent :=
  JSON.parse s ≫= event_of_json.

End Endpoints.

(** ** store/chat.ts *)
Module ChatStore.

Inductive Role := user | assistant.

#[global] Instance Role_eq_dec : EqDecision Role.
Proof. solve_decision. Defined.

(** [rating?: number | null]: [None] is an absent field, [Some None] is
    [null].  An absent [id], [created_at] or [isStreaming] is [None]. *)
Record ChatMsg := {
  id : option Z;
  role : Role;
  content : jsstring;
  rating : option (option Z);
  created_at : option jsstring;
  isStreaming : option bool
}.

Record ChatState := {
  messages : list ChatMsg;
  isLoading : bool;
  hasMore : bool
}.

(** [set({ messages: msgs })] merges the field into the state. *)
Definition set_messages (msgs : list ChatMsg) (s : ChatState) : ChatState :=
  {| messages := msgs; isLoading := isLoading s; hasMore := hasMore s |}.

Definition init : ChatState :=
  {| messages := []; isLoading := false; hasMore := false |}.

Definition setMessages (msgs : list ChatMsg) (s : ChatState) : ChatState :=
  set_messages msgs s.

Definition addMessage (msg : ChatMsg) (s : ChatState) : ChatState :=
  set_messages (messages s ++ [msg]) s.

(** [{ ...m, content: c }] *)
Definition with_content (m : ChatMsg) (c : jsstring) : ChatMsg :=
  {| id := id m; role := role m; content := c; rating := rating m;
     created_at := created_at m; isStreaming := isStreaming m |}.

(** [{ ...m, id: messageId, isStreaming: false }] *)
Definition with_id_finished (m : ChatMsg) (messageId : Z) : ChatMsg :=
  {| id := Some messageId; role := role m; content := content m;
     rating := rating m; created_at := created_at m;
     isStreaming := Some false |}.

(** [{ ...m, rating }] *)
Definition with_rating (m : ChatMsg) (rating_ : Z) : ChatMsg :=
  {| id := id m; role := role m; content := content m;
     rating := Some (Some rating_); created_at := created_at m;
     isStreaming := isStreaming m |}.

(** [msgs[msgs.length - 1]]; on the empty array the index is -1 and the
    element is [undefined], as [[] !! 0] is [None]. *)
Definition appendToLast (c : jsstring) (s : ChatState) : ChatState :=
  let msgs := messages s in
  let i := (length msgs - 1)%nat in
  match msgs !! i with
  | Some last =>
      if bool_decide (role last = assistant) then
        set_messages (<[i := with_content last (content last ++ c)]> msgs) s
      else set_messages msgs s
  | None => set_messages msgs s
  end.

Definition finishStreaming (messageId : Z) (s : ChatState) : ChatState :=
  let msgs := messages s in
  let i := (length msgs - 1)%nat in
  match msgs !! i with
  | Some last =>
      if bool_decide (role last = assistant)
         && bool_decide (isStreaming last = Some true) then
        set_messages (<[i := with_id_finished last messageId]> msgs) s
      else set_messages msgs s
  | None => set_messages msgs s
  end.

(** The arrow function [updateRating] maps over the messages. *)
Definition rate (messageId rating_ : Z) (m : ChatMsg) : ChatMsg :=
  if bool_decide (id m = Some messageId) then with_rating m rating_ else m.

Definition updateRating (messageId rating_ : Z) (s : ChatState) : ChatState :=
  set_messages (rate messageId rating_ <$> messages s) s.

Definition setLoading (v : bool) (s : ChatState) : ChatState :=
  {| messages := messages s; isLoading := v; hasMore := hasMore s |}.

Definition setHasMore (v : bool) (s : ChatState) : ChatState :=
  {| messages := messages s; isLoading := isLoading s; hasMore := v |}.

Definition prependMessages (msgs : list ChatMsg) (s : ChatState) : ChatState :=
  set_messages (msgs ++ messages s) s.


(** The server identifiers of the messages that have one, in order. *)
Definition ids (msgs : list ChatMsg) : list Z := omap id msgs.

End ChatStore.

(** ** pages/Chat.tsx *)
Module Chat.
Import JSString ChatStore Client.

Definition fallback_error : jsstring := Eval vm_compute in js "Ошибка".
Definition fallback_thrown : jsstring :=
  Eval vm_compute in js "Произошла ошибка. Попробуй ещё раз.".

(** The store and the component state of the page. *)
Record State := {
  store : ChatState;
  input : jsstring;
  isSending : bool
}.

(** [{ role: "user", content: text }] *)
Definition user_message (text : jsstring) : ChatMsg :=
  {| id := None; role := user; content := text; rating := None;
     created_at := None; isStreaming := None |}.

(** [{ role: "assistant", content: (the empty string), isStreaming: true }] *)
Definition placeholder : ChatMsg :=
  {| id := None; role := assistant; content := []; rating := None;
     created_at := None; isStreaming := Some true |}.

(** An optional string is truthy when it is present and not empty. *)
Definition truthy_content (c : option jsstring) : bool := truthy (default [] c).

(** An optional number is truthy when it is present and not 0. *)
Definition truthy_id (i : option Z) : bool :=
  match i with
  | Some z => negb (z =? 0)%Z
  | None => false
  end.

(** The body of [for await (const event of stream)]. *)
Definition on_event (event : StreamEvent) (s : ChatState) : ChatState :=
  if bool_decide (Event.type event = s_token) && truthy_content (Event.content event) then
    appendToLast (default [] (Event.content event)) s
  else if bool_decide (Event.type event = s_done) && truthy_id (Event.message_id event) then
    finishStreaming (default 0%Z (Event.message_id event)) s
  else if bool_decide (Event.type event = s_error) then
    finishStreaming 0 (appendToLast (or_else (default [] (Event.content event)) fallback_error) s)
  else s.

Definition consume (events : list StreamEvent) (s : ChatState) : ChatState :=
  fold_left (fun s event => on_event event s) events s.

(** The [catch] block. *)
Definition on_throw (s : ChatState) : ChatState :=
  finishStreaming 0 (appendToLast fallback_thrown s).

Section Handlers.
(** [sendChatMessage(text)] at its declared type: the events the
    stream yields and how it ends. *)
Variable sendChatMessage : jsstring -> list StreamEvent * completion.

(** [handleSend] up to its first suspension: [None] when it returns at
    the guard, else the trimmed text and the state the call leaves. *)
Definition handleSend_sync (p : State) : option (jsstring * State) :=
  let text := trim (input p) in
  if negb (truthy text) || isSending p then None
  else
    Some (text,
          {| store := addMessage placeholder (addMessage (user_message text) (store p));
             input := [];
             isSending := true |}).

(** The rest of [handleSend]: the loop over the stream, the [catch]
    block and [setIsSending(false)]. *)
Definition handleSend_stream (text : jsstring) (p : State) : State :=
  let '(events, c) := sendChatMessage text in
  let s := consume events (store p) in
  let s := match c with Returned => s | Threw => on_throw s end in
  {| store := s; input := input p; isSending := false |}.

(** [handleSend()] run to its end, with the requests it issued. *)
Definition handleSend (p : State) : State * list Request :=
  match handleSend_sync p with
  | None => (p, [])
  | Some (text, p') => (handleSend_stream text p', [PostChat text])
  end.

Definition handleRate (messageId rating_ : Z) (p : State) : State * list Request :=
  ({| store := updateRating messageId rating_ (store p);
      input := input p; isSending := isSending p |},
   [PostChatFeedback messageId rating_]).
End Handlers.

End Chat.

(** ** pages/Audit.tsx *)
Module Audit.
Import JSString Client.

Definition fallback_error : jsstring := Eval vm_compute in js "Ошибка при анализе".
Definition fallback_thrown : jsstring :=
  Eval vm_compute in js "Произошла ошибка. Попробуй ещё раз.".

Record State := {
  text : jsstring;
  result : jsstring;
  isAuditing : bool
}.

(** The body of [for await (const event of stream)] on the result. *)
Definition on_event (event : StreamEvent) (result_ : jsstring) : jsstring :=
  if bool_decide (Event.type event = s_token) && truthy (default [] (Event.content event)) then
    result_ ++ default [] (Event.content event)
  else if bool_decide (Event.type event = s_done) then result_
  else if bool_decide (Event.type event = s_error) then
    or_else (default [] (Event.content event)) fallback_error
  else result_.

Definition consume (events : list StreamEvent) (result_ : jsstring) : jsstring :=
  fold_left (fun r event => on_event event r) events result_.

Section Handlers.
(** [sendAudit(text)] at its declared type. *)
Variable sendAudit : jsstring -> list StreamEvent * completion.

(** The guard of [handleAudit]: [true] when it returns at once. *)
Definition rejects (p : State) : bool :=
  negb (truthy (trim (text p)))
  || (length (trim (text p)) <? 50)%nat
  || isAuditing p.

(** [handleAudit()] run to its end, with the requests it issued. *)
Definition handleAudit (p : State) : State * list Request :=
  if rejects p then (p, [])
  else
    let '(events, c) := sendAudit (text p) in
    let r := consume events [] in
    let r := match c with Returned => r | Threw => fallback_thrown end in
    ({| text := text p; result := r; isAuditing := false |},
     [PostAudit (text p)]).
End Handlers.

End Audit.

(** ** Properties the reader and the store are checked against *)

(** Bytes of a literal, with every apostrophe read as a double quote. *)
Definition bytes (s : string) : list byte :=
  map (fun b => if Byte.eqb b x27 then x22 else b) (list_byte_of_string s).

(** The bytes of a literal followed by a newline. *)
Definition line (s : string) : list byte := bytes s ++ [x0a].




(** A response with status 2xx and the given body. *)
Definition ok_response (rd : Client.ReadableStream) : Client.fetch_result :=
  Client.Resolved {| Client.ok := true; Client.body := Some rd |}.

(** How the reader ends on a body. *)
Definition end_of (rd : Client.ReadableStream) : Client.completion :=
  if Client.read_fails rd then Client.Threw else Client.Returned.


(** A stream whose first line is a malformed frame, cut in the middle of
    the marker of the next line. *)
Definition malformed_then_token : Client.ReadableStream :=
  {| Client.chunks :=
       [line "data: {not json" ++ bytes "da";
        line "ta: {'type':'token','content':'x'}"];
     Client.read_fails := false |}.

(** Two messages that differ at most in their content. *)
Definition same_but_content (m m' : ChatStore.ChatMsg) : Prop :=
  ChatStore.id m' = ChatStore.id m
  /\ ChatStore.role m' = ChatStore.role m
  /\ ChatStore.rating m' = ChatStore.rating m
  /\ ChatStore.created_at m' = ChatStore.created_at m
  /\ ChatStore.isStreaming m' = ChatStore.isStreaming m.

(** Two messages that differ at most in their rating. *)
Definition same_but_rating (m m' : ChatStore.ChatMsg) : Prop :=
  ChatStore.id m' = ChatStore.id m
  /\ ChatStore.role m' = ChatStore.role m
  /\ ChatStore.content m' = ChatStore.content m
  /\ ChatStore.created_at m' = ChatStore.created_at m
  /\ ChatStore.isStreaming m' = ChatStore.isStreaming m.



(** The contents of a list of events, an absent one being empty. *)
Definition contents (evs : list StreamEvent) : list jsstring :=
  map (fun ev => default [] (Event.content ev)) evs.

(** An event of type "token" with the given content. *)
Definition token (c : jsstring) : StreamEvent :=
  {| Event.type := s_token; Event.content := Some c; Event.message_id := None |}.

(** An event of type "done" with the given message id. *)
Definition done (i : Z) : StreamEvent :=
  {| Event.type := s_done; Event.content := None; Event.message_id := Some i |}.

(** An event of type "error" with the given content. *)
Definition error (c : option jsstring) : StreamEvent :=
  {| Event.type := s_error; Event.content := c; Event.message_id := None |}.

(** A finalized answer with server identifier [i]. *)
Definition answer (i : Z) (c : string) : ChatStore.ChatMsg :=
  {| ChatStore.id := Some i; ChatStore.role := ChatStore.assistant;
     ChatStore.content := js c; ChatStore.rating := None;
     ChatStore.created_at := None; ChatStore.isStreaming := Some false |}.

(** A store that holds the given messages. *)
Definition store_of (msgs : list ChatStore.ChatMsg) : ChatStore.ChatState :=
  ChatStore.setMessages msgs ChatStore.init.

(** An idle chat page with the given messages and input. *)
Definition chat_page (msgs : list ChatStore.ChatMsg) (input : string) : Chat.State :=
  {| Chat.store := store_of msgs; Chat.input := js input; Chat.isSending := false |}.

(** An idle audit page with the given text. *)
Definition audit_page (text : jsstring) : Audit.State :=
  {| Audit.text := text; Audit.result := []; Audit.isAuditing := false |}.

(** A stream that yields the given events and ends as given, whatever
    the request. *)
Definition reply (evs : list StreamEvent) (c : Client.completion)
  : jsstring -> list StreamEvent * Client.completion :=
  fun _ => (evs, c).


(** A text of [n] letters between two spaces. *)
Definition padded (n : nat) : jsstring := [32%N] ++ replicate n 97%N ++ [32%N].

(** A store whose only message is a finalized answer. *)
Definition finalized_store : ChatStore.ChatState := store_of [answer 42 "hi"].

(** A stream that answers with one token and ends with done(42). *)
Definition send_answer : jsstring -> list StreamEvent * Client.completion :=
  reply [token (js "a"); done 42] Client.Returned.



(** A page with a question and its answer, stored under the id 42. *)
Definition answered_page : Chat.State :=
  chat_page [Chat.user_message (js "q"); answer 42 "a"] "draft".

(** A store in which the id 7 occurs at two positions. *)
Definition repeated_id_store : ChatStore.ChatState :=
  store_of [answer 7 "a"; Chat.user_message (js "q"); answer 7 "b"].

(** A server that answers every request with the tokens of "Привет!",
    the second frame cut between two chunks, and then done(42). *)
Definition greeting_server (_ : Request) : Client.fetch_result :=
  ok_response
    {| Client.chunks :=
         [line "data: {'type':'token','content':'При'}" ++ bytes "data: {'type':'tok";
          line "en','content':'вет!'}" ++ line "data: {'type':'done','message_id':42}"];
       Client.read_fails := false |}.

(** ** api/client.ts: the token holder, [apiFetch] and the thrown errors *)
Module Api.

Definition BASE_URL : jsstring := Eval vm_compute in js "/api/miniapp".
Definition h_content_type : jsstring := Eval vm_compute in js "Content-Type".
Definition h_authorization : jsstring := Eval vm_compute in js "Authorization".
Definition application_json : jsstring := Eval vm_compute in js "application/json".
Definition bearer : jsstring := Eval vm_compute in js "Bearer ".
Definition s_POST : jsstring := Eval vm_compute in js "POST".
Definition s_UNKNOWN : jsstring := Eval vm_compute in js "UNKNOWN".
Definition s_detail : jsstring := Eval vm_compute in js "detail".
Definition s_code : jsstring := Eval vm_compute in js "code".
Definition s_message : jsstring := Eval vm_compute in js "message".

(** The module variable [_token]; [None] is [null]. *)
Definition setToken (token : jsstring) (_token : option jsstring) : option jsstring :=
  Some token.

Definition getToken (_token : option jsstring) : option jsstring := _token.

Definition clearToken (_token : option jsstring) : option jsstring := None.

(** [if (_token)]: a held token that is not the empty string. *)
Definition held (_token : option jsstring) : option jsstring :=
  match _token with
  | Some t => if JSString.truthy t then Some t else None
  | None => None
  end.

(** The fields of [RequestInit] the client uses; absent [headers] are
    the empty object. *)
Record RequestInit := {
  method : option jsstring;
  headers : gmap jsstring jsstring;
  body : option jsstring
}.

(** [{}] *)
Definition no_options : RequestInit :=
  {| method := None; headers := ∅; body := None |}.

(** A call of [fetch(url, init)]. *)
Record FetchCall := {
  url : jsstring;
  init : RequestInit
}.

(** [headers["Authorization"] = `Bearer ${_token}`] when a token is held. *)
Definition with_token (_token : option jsstring) (h : gmap jsstring jsstring)
  : gmap jsstring jsstring :=
  match held _token with
  | Some t => <[h_authorization := bearer ++ t]> h
  | None => h
  end.

(** The call [apiFetch(path, options)] makes: the spread puts the
    headers of the caller over the default content type. *)
Definition apiFetch_call (_token : option jsstring) (path : jsstring)
    (options : RequestInit) : FetchCall :=
  let headers_ := with_token _token (headers options ∪ {[h_content_type := application_json]}) in
  {| url := BASE_URL ++ path;
     init := {| method := method options; headers := headers_; body := body options |} |}.

(** The call [apiStream(path, body)] makes; [body_text] is
    [JSON.stringify(body)]. *)
Definition apiStream_call (_token : option jsstring) (path body_text : jsstring)
  : FetchCall :=
  let headers_ := with_token _token {[h_content_type := application_json]} in
  {| url := BASE_URL ++ path;
     init := {| method := Some s_POST; headers := headers_; body := Some body_text |} |}.

(** JavaScript truthiness of a parsed value.  (A number is zero when
    its mantissa is; an exponent below the range of a double is not
    modelled.) *)
Definition truthy (v : JSON.value) : bool :=
  match v with
  | JSON.Null => false
  | JSON.Bool b => b
  | JSON.Num m _ => negb (m =? 0)%Z
  | JSON.Str s => JSString.truthy s
  | JSON.Arr _ | JSON.Obj _ => true
  end.

(** [a || b], where [a] may be [undefined]. *)
Definition or_value (a : option JSON.value) (b : JSON.value) : JSON.value :=
  match a with
  | Some v => if truthy v then v else b
  | None => b
  end.

(** [v?.k], where [v] may be [undefined] or [null]. *)
Definition opt_get (k : jsstring) (v : option JSON.value) : option JSON.value :=
  v ≫= JSON.get k.

(** What the client reads of a response that is not a stream:
    [json] is [None] when [res.json()] rejects. *)
Record HttpResponse := {
  status : Z;
  statusText : jsstring;
  ok : bool;
  json : option JSON.value
}.

(** The errors of the runtime the client can meet. *)
Inductive NativeError := TypeError | SyntaxError.

(** What a call can throw: the object literal [{ status, code, message }]
    of the client, or an error of the runtime. *)
Inductive Thrown :=
| ApiError (status_ : Z) (code message : JSON.value)
| Native (e : NativeError).

(** How a promise settles. *)
Inductive Settled (A : Type) :=
| Fulfilled (a : A)
| RejectedWith (err : Thrown).
Arguments Fulfilled {A} a.
Arguments RejectedWith {A} err.

(** [await res.json().catch(() => ({}))] *)
Definition error_body (res : HttpResponse) : JSON.value :=
  default (JSON.Obj []) (json res).

(** [e?.error?.k || fallback] for a value [e] that is not [undefined]. *)
Definition error_field (k : jsstring) (e : option JSON.value) (fallback : jsstring)
  : JSON.value :=
  or_value (opt_get k (opt_get s_error e)) (JSON.Str fallback).

(** The [throw] of [apiFetch] on a response that is not ok.  Reading
    [body.detail] of [null] is a TypeError. *)
Definition apiFetch_throws (res : HttpResponse) : Thrown :=
  match error_body res with
  | JSON.Null => Native TypeError
  | body_ =>
      let detail := or_value (JSON.get s_detail body_) body_ in
      ApiError (status res)
        (error_field s_code (Some detail) s_UNKNOWN)
        (error_field s_message (Some detail) (statusText res))
  end.


Section ApiFetch.
(** What [fetch] settles to for a call. *)
Variable fetch : FetchCall -> Settled HttpResponse.

(** [apiFetch(path, options)] with the token held at the call. *)
Definition apiFetch (_token : option jsstring) (path : jsstring)
    (options : RequestInit) : Settled JSON.value :=
  match fetch (apiFetch_call _token path options) with
  | RejectedWith err => RejectedWith err
  | Fulfilled res =>
      if negb (ok res) then RejectedWith (apiFetch_throws res)
      else match json res with
           | Some v => Fulfilled v
           | None => RejectedWith (Native SyntaxError)
           end
  end.
End ApiFetch.

End Api.

(** ** lib/telegram.ts *)
Module Telegram.

(** [initDataUnsafe.user] *)
Record TgUser := {
  tg_id : Z;
  tg_first_name : jsstring;
  photo_url : option jsstring
}.

(** What the helpers read of [window.Telegram.WebApp]. *)
Record WebApp := {
  initData : jsstring;
  initDataUnsafe_user : option TgUser
}.

Inductive HapticType := light | medium | heavy | success | error | warning.

(** The calls into the SDK. *)
Inductive SdkCall :=
| Ready
| Expand
| ImpactOccurred (style : HapticType)
| NotificationOccurred (type : HapticType).

Section Window.
(** [window.Telegram?.WebApp ?? null] *)
Variable getWebApp : option WebApp.

Definition getInitData : jsstring :=
  match getWebApp with
  | Some wa => initData wa
  | None => []
  end.

Definition getTelegramUser : option TgUser :=
  getWebApp ≫= initDataUnsafe_user.

(** The SDK calls of [ready()], in order. *)
Definition ready : list SdkCall :=
  match getWebApp with
  | Some _ => [Ready; Expand]
  | None => []
  end.

(** ["light", "medium", "heavy", "rigid", "soft"].includes(type) *)
Definition is_impact (type : HapticType) : bool :=
  match type with
  | light | medium | heavy => true
  | success | error | warning => false
  end.

(** The SDK calls of [haptic(type)]. *)
Definition haptic (type : HapticType) : list SdkCall :=
  match getWebApp with
  | None => []
  | Some _ => if is_impact type then [ImpactOccurred type] else [NotificationOccurred type]
  end.

Definition isTelegramWebApp : bool :=
  match getWebApp with
  | Some wa => JSString.truthy (initData wa)
  | None => false
  end.
End Window.

End Telegram.

(** ** store/auth.ts, with [authenticate] of api/endpoints.ts *)
Module AuthStore.
Import Api.

Definition auth_url : jsstring := Eval vm_compute in js "/api/miniapp/auth".
Definition h_init_data : jsstring := Eval vm_compute in js "X-Telegram-Init-Data".
Definition s_AUTH_FAILED : jsstring := Eval vm_compute in js "AUTH_FAILED".
Definition s_Auth_failed : jsstring := Eval vm_compute in js "Auth failed".

Record UserData := {
  id : Z;
  telegram_id : Z;
  username : option jsstring;
  first_name : option jsstring;
  last_name : option jsstring;
  level : jsstring;
  xp : Z;
  role : jsstring;
  subscription_tier : jsstring;
  onboarding_completed : bool
}.

(** [Partial<UserData>]: [None] is an absent key. *)
Record PartialUserData := {
  p_id : option Z;
  p_telegram_id : option Z;
  p_username : option (option jsstring);
  p_first_name : option (option jsstring);
  p_last_name : option (option jsstring);
  p_level : option jsstring;
  p_xp : option Z;
  p_role : option jsstring;
  p_subscription_tier : option jsstring;
  p_onboarding_completed : option bool
}.

(** The state of the store; [None] is [null].  [error] and [errorCode]
    hold what the caught value carries ([catch (err: any)]). *)
Record AuthState := {
  user : option UserData;
  isLoading : bool;
  error : option JSON.value;
  errorCode : option JSON.value
}.

(** The state the store is created with. *)
Definition initial : AuthState :=
  {| user := None; isLoading := true; error := None; errorCode := None |}.

(** The store together with the token variable of the client. *)
Record World := {
  state : AuthState;
  _token : option jsstring
}.

(** The call of [fetch] that [authenticate()] makes. *)
Definition authenticate_call (initData : jsstring) : FetchCall :=
  {| url := auth_url;
     init := {| method := Some s_POST;
                headers := <[h_init_data := initData]> {[h_content_type := application_json]};
                body := None |} |}.

(** The [throw] of [authenticate()] on a response that is not ok. *)
Definition authenticate_throws (res : HttpResponse) : Thrown :=
  match error_body res with
  | JSON.Null => Native TypeError
  | body_ =>
      ApiError (status res)
        (error_field s_code (JSON.get s_detail body_) s_AUTH_FAILED)
        (error_field s_message (JSON.get s_detail body_) s_Auth_failed)
  end.

Section Authenticate.
Variable fetch : FetchCall -> Settled HttpResponse.

(** [authenticate()] with the init data of the host. *)
Definition authenticate (initData : jsstring) : Settled JSON.value :=
  match fetch (authenticate_call initData) with
  | RejectedWith err => RejectedWith err
  | Fulfilled res =>
      if negb (ok res) then RejectedWith (authenticate_throws res)
      else match json res with
           | Some v => Fulfilled v
           | None => RejectedWith (Native SyntaxError)
           end
  end.
End Authenticate.

(** [{ token, user }] *)
Record AuthData := {
  token : jsstring;
  data_user : UserData
}.

(** The envelope [login] reads of what [authenticate()] returns. *)
Record AuthResponse := {
  res_ok : bool;
  data : option AuthData
}.

Section Login.
(** The message the runtime gives its own errors. *)
Variable native_message : NativeError -> jsstring.

(** [err.message] *)
Definition err_message (err : Thrown) : option JSON.value :=
  match err with
  | ApiError _ _ m => Some m
  | Native e => Some (JSON.Str (native_message e))
  end.

(** [err.code] *)
Definition err_code (err : Thrown) : option JSON.value :=
  match err with
  | ApiError _ c _ => Some c
  | Native _ => None
  end.

(** [set({ isLoading: true, error: null, errorCode: null })] *)
Definition login_begin (s : AuthState) : AuthState :=
  {| user := user s; isLoading := true; error := None; errorCode := None |}.

(** The rest of [login] once [authenticate()] has settled. *)
Definition login_settled (r : Settled AuthResponse) (w : World) : World :=
  match r with
  | Fulfilled res =>
      match res_ok res, data res with
      | true, Some d =>
          {| state := {| user := Some (data_user d); isLoading := false;
                         error := error (state w); errorCode := errorCode (state w) |};
             _token := setToken (token d) (_token w) |}
      | _, _ =>
          {| state := {| user := user (state w); isLoading := false;
                         error := Some (JSON.Str s_Auth_failed);
                         errorCode := Some (JSON.Str s_AUTH_FAILED) |};
             _token := _token w |}
      end
  | RejectedWith err =>
      {| state := {| user := user (state w); isLoading := false;
                     error := Some (or_value (err_message err) (JSON.Str s_Auth_failed));
                     errorCode := Some (or_value (err_code err) (JSON.Str s_AUTH_FAILED)) |};
         _token := _token w |}
  end.

(** [login()] run to its end. *)
Definition login (r : Settled AuthResponse) (w : World) : World :=
  login_settled r {| state := login_begin (state w); _token := _token w |}.
End Login.

Definition logout (w : World) : World :=
  {| state := {| user := None; isLoading := isLoading (state w);
                 error := None; errorCode := None |};
     _token := clearToken (_token w) |}.

(** [{ ...u, ...data }] *)
Definition merge (u : UserData) (d : PartialUserData) : UserData :=
  {| id := default (id u) (p_id d);
     telegram_id := default (telegram_id u) (p_telegram_id d);
     username := default (username u) (p_username d);
     first_name := default (first_name u) (p_first_name d);
     last_name := default (last_name u) (p_last_name d);
     level := default (level u) (p_level d);
     xp := default (xp u) (p_xp d);
     role := default (role u) (p_role d);
     subscription_tier := default (subscription_tier u) (p_subscription_tier d);
     onboarding_completed := default (onboarding_completed u) (p_onboarding_completed d) |}.

Definition updateUser (d : PartialUserData) (s : AuthState) : AuthState :=
  {| user := match user s with Some u => Some (merge u d) | None => None end;
     isLoading := isLoading s; error := error s; errorCode := errorCode s |}.

End AuthStore.

(** ** App.tsx: the gate in front of the pages *)
Module AuthGate.
Import Api AuthStore.

Definition s_ONBOARDING_REQUIRED : jsstring :=
  Eval vm_compute in js "ONBOARDING_REQUIRED".
Definition open_via_telegram : jsstring :=
  Eval vm_compute in js "Открой приложение через Telegram".

(** What the gate renders. *)
Inductive Screen :=
| Loading
| Onboarding
| LoginFailed (text : JSON.value)
| Children.

(** [v === "..."] for a string literal. *)
Definition is_string (lit : jsstring) (v : option JSON.value) : bool :=
  match v with
  | Some (JSON.Str t) => bool_decide (t = lit)
  | _ => false
  end.

(** [error] as a condition. *)
Definition truthy_opt (v : option JSON.value) : bool :=
  match v with Some x => truthy x | None => false end.

Definition AuthGate (s : AuthState) : Screen :=
  if isLoading s then Loading
  else if is_string s_ONBOARDING_REQUIRED (errorCode s) then Onboarding
  else if truthy_opt (error s) || negb (bool_decide (is_Some (user s))) then
    LoginFailed (or_value (error s) (JSON.Str open_via_telegram))
  else Children.

End AuthGate.

(** ** pages/Chat.tsx: the history loaded on mount, the send button and
    the keys of the rendered list *)
Module ChatView.
Import JSString ChatStore Api.

(** [{ messages, has_more }] *)
Record HistoryData := {
  h_messages : list ChatMsg;
  has_more : bool
}.

(** The envelope the page reads of what [getChatHistory] returns. *)
Record HistoryResponse := {
  h_ok : bool;
  h_data : option HistoryData
}.

(** The [then] and [catch] callbacks of the history request. *)
Definition on_history (r : Settled HistoryResponse) (s : ChatState) : ChatState :=
  match r with
  | Fulfilled res =>
      match h_ok res, h_data res with
      | true, Some d => setHasMore (has_more d) (setMessages (h_messages d) s)
      | _, _ => s
      end
  | RejectedWith _ => s
  end.

(** What can happen to the store while a turn is streaming: the stream
    yields an event, or the history request settles. *)
Inductive Step :=
| Yield (event : StreamEvent)
| HistorySettles (r : Settled HistoryResponse).

Definition step (st : Step) (s : ChatState) : ChatState :=
  match st with
  | Yield event => Chat.on_event event s
  | HistorySettles r => on_history r s
  end.

Definition run (steps : list Step) (s : ChatState) : ChatState :=
  fold_left (fun s st => step st s) steps s.

(** [disabled={!input.trim() || isSending}] of the send button. *)
Definition send_disabled (p : Chat.State) : bool :=
  negb (JSString.truthy (trim (Chat.input p))) || Chat.isSending p.

(** A React key: the number [msg.id], or the string [`temp-${i}`].  A
    key is compared as a string, and no number reads as "temp-i". *)
Inductive Key :=
| KeyId (id : Z)
| KeyTemp (i : nat).

#[global] Instance Key_eq_dec : EqDecision Key.
Proof. solve_decision. Defined.

(** [msg.id || `temp-${i}`] *)
Definition key (i : nat) (msg : ChatMsg) : Key :=
  match id msg with
  | Some z => if (z =? 0)%Z then KeyTemp i else KeyId z
  | None => KeyTemp i
  end.

(** The keys of [messages.map((msg, i) => ...)]. *)
Definition keys (msgs : list ChatMsg) : list Key := imap key msgs.

(** The identifier of a message when it is a truthy number. *)
Definition truthy_id (msg : ChatMsg) : option Z :=
  match id msg with
  | Some z => if (z =? 0)%Z then None else Some z
  | None => None
  end.

End ChatView.

(** ** pages/Audit.tsx: the submit button *)
Module AuditView.

Definition charCount (p : Audit.State) : nat := length (Audit.text p).

Definition isValid (p : Audit.State) : bool := (50 <=? charCount p)%nat.

(** [disabled={!isValid || isAuditing}] *)
Definition submit_disabled (p : Audit.State) : bool :=
  negb (isValid p) || Audit.isAuditing p.

End AuditView.

(** ** pages/TaskDetail.tsx: [handleSubmit] *)
Module TaskDetail.
Import JSString Api.

Record UserTaskData := {
  ut_id : Z;
  status : jsstring;
  submission_text : option jsstring;
  review_text : option jsstring;
  review_score : option Z;
  xp_earned : option Z
}.

(** [{ user_task, review }] *)
Record SubmitData := {
  user_task : option UserTaskData;
  d_review : option jsstring
}.

(** The envelope the page reads of what [submitTask] returns. *)
Record SubmitResponse := {
  s_ok : bool;
  s_data : option SubmitData
}.

(** The route parameter and the component state [handleSubmit] uses. *)
Record State := {
  id : option jsstring;
  userTask : option UserTaskData;
  submission : jsstring;
  isSubmitting : bool;
  review : option jsstring
}.

(** [submitTask(Number(id), submission)] *)
Inductive TaskRequest :=
| SubmitTask (id : jsstring) (text : jsstring).

(** The guard of [handleSubmit]. *)
Definition rejects (p : State) : bool :=
  negb (JSString.truthy (trim (submission p)))
  || isSubmitting p
  || negb (JSString.truthy (default [] (id p))).

(** [res.data.user_task?.xp_earned] when it is truthy. *)
Definition earned (d : SubmitData) : option Z :=
  match user_task d ≫= xp_earned with
  | Some e => if (e =? 0)%Z then None else Some e
  | None => None
  end.

(** [{ xp: ... }] *)
Definition only_xp (x : Z) : AuthStore.PartialUserData :=
  {| AuthStore.p_id := None; AuthStore.p_telegram_id := None;
     AuthStore.p_username := None; AuthStore.p_first_name := None;
     AuthStore.p_last_name := None; AuthStore.p_level := None;
     AuthStore.p_xp := Some x; AuthStore.p_role := None;
     AuthStore.p_subscription_tier := None;
     AuthStore.p_onboarding_completed := None |}.

(** [handleSubmit()] run to its end on what [submitTask] settles to:
    the auth store, the page and the requests issued. *)
Definition handleSubmit (r : Settled SubmitResponse)
    (auth : AuthStore.AuthState) (p : State)
  : AuthStore.AuthState * State * list TaskRequest :=
  if rejects p then (auth, p, [])
  else
    let req := [SubmitTask (default [] (id p)) (submission p)] in
    let idle ut rv :=
      {| id := id p; userTask := ut; submission := submission p;
         isSubmitting := false; review := rv |} in
    match r with
    | Fulfilled res =>
        match s_ok res, s_data res with
        | true, Some d =>
            let auth' :=
              match earned d, AuthStore.user auth with
              | Some e, Some u =>
                  AuthStore.updateUser (only_xp (AuthStore.xp u + e)%Z) auth
              | _, _ => auth
              end in
            (auth', idle (user_task d) (d_review d), req)
        | _, _ => (auth, idle (userTask p) (review p), req)
        end
    | RejectedWith _ => (auth, idle (userTask p) (review p), req)
    end.

End TaskDetail.

(** ** components/BottomNav.tsx: the active item *)
Module BottomNav.
Import JSString.

Definition root : jsstring := Eval vm_compute in js "/".

(** The [path] of each of [NAV_ITEMS], in order. *)
Definition NAV_ITEMS : list jsstring :=
  Eval vm_compute in [js "/"; js "/chat"; js "/audit"; js "/tasks"; js "/profile"].

Definition isActive (pathname path : jsstring) : bool :=
  if bool_decide (path = root) then bool_decide (pathname = root)
  else startsWith path pathname.

End BottomNav.

(** ** Inputs of the further properties *)

(** A store whose last message is still streaming. *)
Definition streaming_store : ChatStore.ChatState :=
  store_of [Chat.user_message (js "q"); Chat.placeholder].

(** A page of two older messages. *)
Definition older_page : list ChatStore.ChatMsg :=
  [Chat.user_message (js "old q"); answer 3 "old a"].

(** An event that takes the assistant message out of streaming: one of
    type "error", or one of type "done" with a truthy [message_id]. *)
Definition settles (ev : StreamEvent) : bool :=
  bool_decide (Event.type ev = s_error)
  || (bool_decide (Event.type ev = s_done) && Chat.truthy_id (Event.message_id ev)).

(** The assistant message of a turn whose stream yielded the tokens
    [evs] and then a "done" event with the identifier [i]. *)
Definition finalized_answer (i : Z) (evs : list StreamEvent) : ChatStore.ChatMsg :=
  {| ChatStore.id := Some i; ChatStore.role := ChatStore.assistant;
     ChatStore.content := concat (contents evs); ChatStore.rating := None;
     ChatStore.created_at := None; ChatStore.isStreaming := Some false |}.

(** The assistant message of a turn whose request failed before any
    event. *)
Definition failed_answer : ChatStore.ChatMsg :=
  {| ChatStore.id := Some 0%Z; ChatStore.role := ChatStore.assistant;
     ChatStore.content := Chat.fallback_thrown; ChatStore.rating := None;
     ChatStore.created_at := None; ChatStore.isStreaming := Some false |}.

(** A stream that yields two tokens and a "done" event without an
    identifier, and closes. *)
Definition send_no_id : jsstring -> list StreamEvent * Client.completion :=
  reply [token (js "a"); token (js "b");
         {| Event.type := s_done; Event.content := None; Event.message_id := None |}]
        Client.Returned.

(** A server that answers every request with a status that is not ok. *)
Definition failing_server (_ : Request) : Client.fetch_result :=
  Client.Resolved {| Client.ok := false; Client.body := None |}.

(** A page of history that ends with a finalized answer, with more to
    load. *)
Definition history_data : ChatView.HistoryData :=
  {| ChatView.h_messages := [Chat.user_message (js "old q"); answer 3 "old a"];
     ChatView.has_more := true |}.

(** The history request fulfilled with the given page. *)
Definition history_ok (d : ChatView.HistoryData) : Api.Settled ChatView.HistoryResponse :=
  Api.Fulfilled {| ChatView.h_ok := true; ChatView.h_data := Some d |}.

(** The store of a page when [handleSend] has returned at its first
    suspension; the store of the page itself when the call is rejected. *)
Definition store_after_submit (p : Chat.State) : ChatStore.ChatState :=
  match Chat.handleSend_sync p with
  | Some (_, p') => Chat.store p'
  | None => Chat.store p
  end.

(** Fifty spaces followed by a letter. *)
Definition blank_text : jsstring := replicate 50 32%N ++ [97%N].

(** A stream that yields a token, an error event and another token. *)
Definition send_error_then_token : jsstring -> list StreamEvent * Client.completion :=
  reply [token (js "par"); error (Some (js "boom")); token (js "!")] Client.Returned.

(** A body whose last frame is not closed by a newline. *)
Definition unterminated_tail : Client.ReadableStream :=
  {| Client.chunks :=
       [line "data: {'type':'token','content':'a'}";
        bytes "data: {'type':'done','message_id':7}"];
     Client.read_fails := false |}.

(** A body with a comment line and a frame whose marker lacks the space. *)
Definition unmarked_lines : Client.ReadableStream :=
  {| Client.chunks :=
       [line "data: {'type':'token','content':'a'}"
        ++ line "data:{'type':'token','content':'b'}"
        ++ line "data: {'type':'done','message_id':7}"];
     Client.read_fails := false |}.

(** The error object of a body: [{ error: { code, message } }]. *)
Definition error_object (code message : string) : JSON.value :=
  JSON.Obj [(s_error, JSON.Obj [(Api.s_code, JSON.Str (js code));
                                (Api.s_message, JSON.Str (js message))])].

(** A response with the status 403 and the given body. *)
Definition forbidden (body : option JSON.value) : Api.HttpResponse :=
  {| Api.status := 403; Api.statusText := js "Forbidden"; Api.ok := false;
     Api.json := body |}.

(** The error wrapped under [detail], as the backend sends it. *)
Definition detail_of (e : JSON.value) : JSON.value := JSON.Obj [(Api.s_detail, e)].

(** A network that answers every call with the given response. *)
Definition answers (res : Api.HttpResponse) (_ : Api.FetchCall)
  : Api.Settled Api.HttpResponse :=
  Api.Fulfilled res.

(** A fulfilled value read through [f]; a rejection is passed on. *)
Definition settled_map {A B} (f : A -> B) (r : Api.Settled A) : Api.Settled B :=
  match r with
  | Api.Fulfilled a => Api.Fulfilled (f a)
  | Api.RejectedWith err => Api.RejectedWith err
  end.

(** What a settled authentication grants: the data of a fulfilled
    response that is ok and has data. *)
Definition granted (r : Api.Settled AuthStore.AuthResponse) : option AuthStore.AuthData :=
  match r with
  | Api.Fulfilled res => if AuthStore.res_ok res then AuthStore.data res else None
  | Api.RejectedWith _ => None
  end.

Definition sample_user : AuthStore.UserData :=
  {| AuthStore.id := 1; AuthStore.telegram_id := 1001;
     AuthStore.username := Some (js "kot"); AuthStore.first_name := Some (js "Kot");
     AuthStore.last_name := None; AuthStore.level := js "kitten"; AuthStore.xp := 40;
     AuthStore.role := js "student"; AuthStore.subscription_tier := js "free";
     AuthStore.onboarding_completed := true |}.

(** The world before the first login. *)
Definition fresh_world : AuthStore.World :=
  {| AuthStore.state := AuthStore.initial; AuthStore._token := None |}.

(** The world after a login that was granted. *)
Definition signed_in : AuthStore.World :=
  {| AuthStore.state :=
       {| AuthStore.user := Some sample_user; AuthStore.isLoading := false;
          AuthStore.error := None; AuthStore.errorCode := None |};
     AuthStore._token := Some (js "t0") |}.

(** A message for the errors of the runtime. *)
Definition native_text (_ : Api.NativeError) : jsstring := js "Failed to fetch".

(** An authentication that is granted. *)
Definition auth_granted : Api.Settled AuthStore.AuthResponse :=
  Api.Fulfilled
    {| AuthStore.res_ok := true;
       AuthStore.data := Some {| AuthStore.token := js "t1";
                                 AuthStore.data_user := sample_user |} |}.

(** The body the backend sends when the onboarding is not done. *)
Definition onboarding_body : JSON.value :=
  detail_of (error_object "ONBOARDING_REQUIRED" "Complete onboarding first").

(** A reading of the envelope that is never reached on a rejection. *)
Definition no_grant (_ : JSON.value) : AuthStore.AuthResponse :=
  {| AuthStore.res_ok := false; AuthStore.data := None |}.

(** What a settled submission delivers: the data of a fulfilled response
    that is ok and has data. *)
Definition submitted (r : Api.Settled TaskDetail.SubmitResponse)
  : option TaskDetail.SubmitData :=
  match r with
  | Api.Fulfilled res => if TaskDetail.s_ok res then TaskDetail.s_data res else None
  | Api.RejectedWith _ => None
  end.

(** A user with another amount of experience points. *)
Definition with_xp (u : AuthStore.UserData) (x : Z) : AuthStore.UserData :=
  {| AuthStore.id := AuthStore.id u; AuthStore.telegram_id := AuthStore.telegram_id u;
     AuthStore.username := AuthStore.username u;
     AuthStore.first_name := AuthStore.first_name u;
     AuthStore.last_name := AuthStore.last_name u; AuthStore.level := AuthStore.level u;
     AuthStore.xp := x; AuthStore.role := AuthStore.role u;
     AuthStore.subscription_tier := AuthStore.subscription_tier u;
     AuthStore.onboarding_completed := AuthStore.onboarding_completed u |}.

(** A page of the task 12 with a submission typed in. *)
Definition task_page : TaskDetail.State :=
  {| TaskDetail.id := Some (js "12"); TaskDetail.userTask := None;
     TaskDetail.submission := js "my post"; TaskDetail.isSubmitting := false;
     TaskDetail.review := None |}.

(** A reviewed task that earned 25 points. *)
Definition reviewed_task : TaskDetail.UserTaskData :=
  {| TaskDetail.ut_id := 5; TaskDetail.status := js "reviewed";
     TaskDetail.submission_text := Some (js "my post");
     TaskDetail.review_text := Some (js "good"); TaskDetail.review_score := Some 8%Z;
     TaskDetail.xp_earned := Some 25%Z |}.

Definition review_data : TaskDetail.SubmitData :=
  {| TaskDetail.user_task := Some reviewed_task; TaskDetail.d_review := Some (js "good") |}.

(** The submission is fulfilled with the review. *)
Definition submit_ok : Api.Settled TaskDetail.SubmitResponse :=
  Api.Fulfilled {| TaskDetail.s_ok := true; TaskDetail.s_data := Some review_data |}.

(** A partial user that renames the level. *)
Definition level_up : AuthStore.PartialUserData :=
  {| AuthStore.p_id := None; AuthStore.p_telegram_id := None;
     AuthStore.p_username := None; AuthStore.p_first_name := None;
     AuthStore.p_last_name := None; AuthStore.p_level := Some (js "wolfling");
     AuthStore.p_xp := Some 120%Z; AuthStore.p_role := None;
     AuthStore.p_subscription_tier := None;
     AuthStore.p_onboarding_completed := None |}.

(** The host object of a session inside Telegram. *)
Definition sample_webapp : Telegram.WebApp :=
  {| Telegram.initData := js "query_id=1"; Telegram.initDataUnsafe_user := None |}.

(** * Theorems *)

(** ** The streaming reader *)
Section ReaderFacts.
Import JSString Client.
Context {T : Type} (JSON_parse : jsstring -> option T).

Lemma or_else_nil s : or_else s [] = s.
Proof. by destruct s. Qed.

Lemma split_not_nil sep s : split sep s ≠ [].
Proof.
  destruct s as [|c r]; simpl; [done|].
  destruct (c =? sep)%N; [done|]. by destruct (split sep r).
Qed.

Lemma split_cons_ne sep c r :
  (c =? sep)%N = false ->
  split sep (c :: r) =
    (c :: default [] (head (split sep r))) :: tail (split sep r).
Proof.
  intros H. simpl. rewrite H.
  pose proof (split_not_nil sep r). by destruct (split sep r).
Qed.

(** Splitting a text that grows: the closed lines stay, the open last
    line is continued. *)
Lemma split_app sep a t :
  split sep (a ++ t) =
    removelast (split sep a) ++ split sep (default [] (last (split sep a)) ++ t).
Proof.
  induction a as [|c a IH]; [done|].
  change ((c :: a) ++ t) with (c :: (a ++ t)).
  pose proof (split_not_nil sep a) as Hne.
  destruct (c =? sep)%N eqn:E.
  - simpl. rewrite E, IH.
    by destruct (split sep a) as [|l ls] eqn:Ha.
  - rewrite !split_cons_ne, IH by done.
    destruct (split sep a) as [|l ls] eqn:Ha; [done|].
    destruct ls as [|l' ls']; simpl; [|done].
    rewrite E. pose proof (split_not_nil sep (l ++ t)).
    by destruct (split sep (l ++ t)).
Qed.

(** The carried buffer never holds a newline. *)
Lemma last_line_closed t : split LF (last_line t) = [last_line t].
Proof.
  unfold last_line. induction t as [|c r IH]; [done|].
  pose proof (split_not_nil LF r) as Hne.
  destruct (c =? LF)%N eqn:E.
  - simpl. rewrite E. by destruct (split LF r) as [|l ls].
  - rewrite split_cons_ne by done.
    destruct (split LF r) as [|l ls]; [done|].
    destruct ls as [|l' ls']; [|done].
    simpl in IH. change (split LF (c :: l) = [c :: l]).
    by rewrite split_cons_ne, IH.
Qed.

Lemma complete_lines_app a t :
  complete_lines (a ++ t) = complete_lines a ++ complete_lines (last_line a ++ t).
Proof.
  unfold complete_lines, last_line. rewrite split_app.
  apply removelast_app, split_not_nil.
Qed.

Lemma frames_of_text_app a t :
  frames_of_text JSON_parse (a ++ t) =
    frames_of_text JSON_parse a ++ frames_of_text JSON_parse (last_line a ++ t).
Proof. unfold frames_of_text. by rewrite complete_lines_app, flat_map_app. Qed.

(** A line without a newline, closed by one, is the first line. *)
Lemma split_line l t :
  LF ∉ l -> split LF (l ++ LF :: t) = l :: split LF t.
Proof.
  induction l as [|c l IH]; intros Hl.
  - done.
  - apply not_elem_of_cons in Hl as [Hc Hl].
    change ((c :: l) ++ LF :: t) with (c :: (l ++ LF :: t)).
    rewrite split_cons_ne, IH; [done|done|].
    by apply N.eqb_neq.
Qed.




Lemma frames_of_text_line l t :
  LF ∉ l ->
  frames_of_text JSON_parse (l ++ LF :: t) =
    on_line JSON_parse l ++ frames_of_text JSON_parse t.
Proof.
  intros Hl. unfold frames_of_text, complete_lines. rewrite split_line by done.
  pose proof (split_not_nil LF t). by destruct (split LF t).
Qed.

(** The loop yields the frames of the closed lines of the buffer
    followed by the text still to come, however the text is cut into
    chunks. *)
Lemma read_loop_frames cs : forall d b,
  split LF b = [b] ->
  read_loop JSON_parse d b cs = frames_of_text JSON_parse (b ++ decode_chunks d cs).
Proof.
  induction cs as [|value rest IH]; intros d b Hb.
  - simpl. rewrite app_nil_r. unfold frames_of_text, complete_lines. by rewrite Hb.
  - simpl. destruct (TextDecoder.decode d value) as [d' text].
    unfold pop. rewrite or_else_nil.
    fold (last_line (b ++ text)). fold (complete_lines (b ++ text)).
    rewrite (IH d' _ (last_line_closed (b ++ text))).
    rewrite app_assoc. symmetry. apply frames_of_text_app.
Qed.

Lemma apiStream_ok rd :
  apiStream JSON_parse (ok_response rd) =
    (frames_of_text JSON_parse (body_text (chunks rd)), end_of rd).
Proof.
  unfold apiStream, ok_response, end_of, body_text. simpl.
  by rewrite read_loop_frames.
Qed.
End ReaderFacts.







(** The reader on the malformed stream: the token frame is yielded. *)
Example malformed_then_token_yields :
  omap event_of_json
    (fst (Client.apiStream JSON.parse (ok_response malformed_then_token))) =
  [ {| Event.type := s_token; Event.content := Some [120%N];
       Event.message_id := None |} ].
Proof. vm_compute. reflexivity. Qed.

(** ** The chat store *)
Section StoreFacts.
Import ChatStore.
Implicit Types (s : ChatState) (m : ChatMsg) (pre msgs : list ChatMsg).

Lemma set_messages_id s : set_messages (messages s) s = s.
Proof. by destruct s. Qed.

Lemma set_messages_twice msgs msgs' s :
  set_messages msgs (set_messages msgs' s) = set_messages msgs s.
Proof. done. Qed.

Lemma lookup_last_snoc pre m : (pre ++ [m]) !! (length (pre ++ [m]) - 1) = Some m.
Proof.
  apply list_lookup_middle. rewrite length_app. simpl. lia.
Qed.

Lemma insert_last_snoc pre m m' :
  <[length (pre ++ [m]) - 1 := m']> (pre ++ [m]) = pre ++ [m'].
Proof.
  rewrite length_app. simpl.
  replace (length pre + 1 - 1) with (length pre + 0) by lia.
  by rewrite insert_app_r.
Qed.

Lemma appendToLast_assistant c s pre m :
  messages s = pre ++ [m] -> role m = assistant ->
  appendToLast c s = set_messages (pre ++ [with_content m (content m ++ c)]) s.
Proof.
  intros Hs Hr. unfold appendToLast. rewrite Hs, lookup_last_snoc.
  rewrite bool_decide_eq_true_2 by done. by rewrite insert_last_snoc.
Qed.

Lemma finishStreaming_streaming i s pre m :
  messages s = pre ++ [m] -> role m = assistant -> isStreaming m = Some true ->
  finishStreaming i s = set_messages (pre ++ [with_id_finished m i]) s.
Proof.
  intros Hs Hr Hst. unfold finishStreaming. rewrite Hs, lookup_last_snoc.
  rewrite !bool_decide_eq_true_2 by done. simpl. by rewrite insert_last_snoc.
Qed.

Lemma finishStreaming_idle i s pre m :
  messages s = pre ++ [m] -> isStreaming m ≠ Some true ->
  finishStreaming i s = s.
Proof.
  intros Hs Hst. unfold finishStreaming. rewrite Hs, lookup_last_snoc.
  rewrite (bool_decide_eq_false_2 (isStreaming m = Some true)) by done.
  rewrite andb_false_r, <- Hs. apply set_messages_id.
Qed.
End StoreFacts.

(** C2 (as the code has it): once the last message is finalized,
    [finishStreaming] changes nothing, and [appendToLast] adds its text to
    the content of that message and changes nothing else: the other
    messages, and the id, role, rating, date and streaming flag of the
    finalized one, stay as they are, so it never streams again. *)
Theorem finalized_message_stays_finalized :
  forall (s : ChatStore.ChatState) (pre : list ChatStore.ChatMsg)
         (m : ChatStore.ChatMsg) (c : jsstring) (i : Z),
    ChatStore.messages s = pre ++ [m] ->
    ChatStore.role m = ChatStore.assistant ->
    ChatStore.isStreaming m = Some false ->
    ChatStore.finishStreaming i s = s
    /\ exists m',
         ChatStore.appendToLast c s = ChatStore.set_messages (pre ++ [m']) s
         /\ ChatStore.content m' = ChatStore.content m ++ c
         /\ same_but_content m m'.
Proof.
  intros s pre m c i Hs Hr Hst. split.
  - apply (finishStreaming_idle i s pre m); [done|]. by rewrite Hst.
  - exists (ChatStore.with_content m (ChatStore.content m ++ c)).
    split; [by apply appendToLast_assistant|]. by repeat split.
Qed.

Lemma finalized_message_stays_finalized_witness :
  ChatStore.finishStreaming 7 finalized_store = finalized_store
  /\ exists m',
       ChatStore.appendToLast (js "x") finalized_store =
         ChatStore.set_messages ([] ++ [m']) finalized_store
       /\ ChatStore.content m' = ChatStore.content (answer 42 "hi") ++ js "x"
       /\ same_but_content (answer 42 "hi") m'.
Proof.
  apply (finalized_message_stays_finalized finalized_store []
           (answer 42 "hi") (js "x") 7); reflexivity.
Defined.

(** C2 (as stated) fails: on a list whose last message is finalized,
    [appendToLast] is not a no-op, it rewrites that message. *)
Lemma appendToLast_changes_finalized_message :
  last (ChatStore.messages finalized_store) = Some (answer 42 "hi")
  /\ ChatStore.role (answer 42 "hi") = ChatStore.assistant
  /\ ChatStore.isStreaming (answer 42 "hi") = Some false
  /\ ChatStore.appendToLast (js "x") finalized_store ≠ finalized_store
  /\ ChatStore.content
       <$> last (ChatStore.messages (ChatStore.appendToLast (js "x") finalized_store))
     = Some (js "hix").
Proof.
  repeat split; try reflexivity.
  intros H. apply (f_equal ChatStore.messages) in H. vm_compute in H. discriminate H.
Qed.

(** ** The chat page *)
Section ChatFacts.
Import JSString ChatStore Chat.
Implicit Types (s : ChatState) (a m : ChatMsg) (pre : list ChatMsg).









Lemma handleSend_sync_accepts p :
  trim (input p) ≠ [] -> isSending p = false ->
  handleSend_sync p =
    Some (trim (input p),
          {| store := set_messages
                        (messages (store p)
                         ++ [user_message (trim (input p)); placeholder]) (store p);
             input := []; isSending := true |}).
Proof.
  intros Ht Hs. unfold handleSend_sync. rewrite Hs.
  destruct (trim (input p)) eqn:E; [done|]. simpl.
  unfold addMessage. simpl. by rewrite <- app_assoc.
Qed.

End ChatFacts.



(** ** The audit page *)
Section AuditFacts.
Import JSString Audit.



Lemma rejects_short p :
  length (trim (text p)) < 50 -> rejects p = true.
Proof.
  intros H. unfold rejects.
  rewrite (proj2 (Nat.ltb_lt _ _) H). by rewrite orb_true_r.
Qed.

Lemma rejects_long_idle p :
  50 <= length (trim (text p)) -> isAuditing p = false -> rejects p = false.
Proof.
  intros H Hidle. unfold rejects. rewrite Hidle.
  rewrite (proj2 (Nat.ltb_ge _ _) H).
  destruct (trim (text p)); [simpl in H; lia|done].
Qed.
End AuditFacts.



(** ** Tokens *)
Section TokenFacts.
Import JSString ChatStore Chat.

Lemma not_truthy_nil (c : jsstring) : truthy c = false -> c = [].
Proof. by destruct c. Qed.

Lemma on_event_token ev s pre m :
  messages s = pre ++ [m] -> role m = assistant ->
  Event.type ev = s_token ->
  on_event ev s =
    set_messages (pre ++ [with_content m (content m ++ default [] (Event.content ev))]) s.
Proof.
  intros Hs Hr Hty. unfold on_event, truthy_content. rewrite Hty.
  rewrite (bool_decide_eq_true_2 (s_token = s_token)) by done.
  rewrite (bool_decide_eq_false_2 (s_token = s_done)) by discriminate.
  rewrite (bool_decide_eq_false_2 (s_token = s_error)) by discriminate.
  simpl. destruct (truthy (default [] (Event.content ev))) eqn:E.
  - by apply appendToLast_assistant.
  - rewrite (not_truthy_nil _ E), app_nil_r.
    replace (with_content m (content m)) with m by by destruct m.
    by rewrite <- Hs, set_messages_id.
Qed.

Lemma consume_tokens evs : forall s pre m,
  messages s = pre ++ [m] -> role m = assistant ->
  Forall (fun ev => Event.type ev = s_token) evs ->
  consume evs s =
    set_messages (pre ++ [with_content m (content m ++ concat (contents evs))]) s.
Proof.
  induction evs as [|ev evs IH]; intros s pre m Hs Hr Hall.
  - simpl. rewrite app_nil_r.
    replace (with_content m (content m)) with m by by destruct m.
    by rewrite <- Hs, set_messages_id.
  - apply Forall_cons in Hall as [Hev Hall].
    change (consume (ev :: evs) s) with (consume evs (on_event ev s)).
    rewrite (on_event_token ev s pre m) by done.
    rewrite (IH _ pre (with_content m (content m ++ default [] (Event.content ev))))
      by done.
    simpl. unfold with_content. simpl. by rewrite <- app_assoc.
Qed.
End TokenFacts.

(** C5: the events of type "token" delivered by the loop of [handleSend]
    to a list that ends with a pending assistant message leave everything
    as it is but the content of that message, which becomes what it was
    followed by c1 ++ ... ++ cn in the order of delivery; on the empty
    content of a fresh placeholder that is c1 ++ ... ++ cn. *)
Theorem tokens_concatenate_in_order :
  forall (s : ChatStore.ChatState) (pre : list ChatStore.ChatMsg)
         (m : ChatStore.ChatMsg) (evs : list StreamEvent),
    ChatStore.messages s = pre ++ [m] ->
    ChatStore.role m = ChatStore.assistant ->
    ChatStore.isStreaming m = Some true ->
    Forall (fun ev => Event.type ev = s_token) evs ->
    exists m',
      Chat.consume evs s = ChatStore.set_messages (pre ++ [m']) s
      /\ ChatStore.content m' = ChatStore.content m ++ concat (contents evs)
      /\ (ChatStore.content m = [] -> ChatStore.content m' = concat (contents evs))
      /\ same_but_content m m'.
Proof.
  intros s pre m evs Hs Hr _ Hall.
  exists (ChatStore.with_content m (ChatStore.content m ++ concat (contents evs))).
  split; [by apply consume_tokens|]. split; [done|].
  split; [|by repeat split]. simpl. by intros ->.
Qed.

Lemma tokens_concatenate_in_order_witness :
  exists m',
    Chat.consume [token (js "При"); token (js "вет!")]
      (store_of [Chat.user_message (js "hi"); Chat.placeholder]) =
    ChatStore.set_messages ([Chat.user_message (js "hi")] ++ [m'])
      (store_of [Chat.user_message (js "hi"); Chat.placeholder])
    /\ ChatStore.content m' =
         ChatStore.content Chat.placeholder
         ++ concat (contents [token (js "При"); token (js "вет!")])
    /\ (ChatStore.content Chat.placeholder = [] ->
        ChatStore.content m' = concat (contents [token (js "При"); token (js "вет!")]))
    /\ same_but_content Chat.placeholder m'.
Proof.
  apply (tokens_concatenate_in_order
           (store_of [Chat.user_message (js "hi"); Chat.placeholder])
           [Chat.user_message (js "hi")] Chat.placeholder
           [token (js "При"); token (js "вет!")]).
  - reflexivity.
  - reflexivity.
  - reflexivity.
  - repeat constructor.
Defined.

(** The scenario of the specification: the text "Привет" is submitted,
    the stream yields the tokens "При" and "вет!" and then done(42). *)
Example chat_turn_scenario :
  ChatStore.messages
    (Chat.store
       (fst (Chat.handleSend
               (reply [token (js "При"); token (js "вет!"); done 42] Client.Returned)
               (chat_page [] "Привет")))) =
  [ Chat.user_message (js "Привет");
    {| ChatStore.id := Some 42%Z; ChatStore.role := ChatStore.assistant;
       ChatStore.content := js "Привет!"; ChatStore.rating := None;
       ChatStore.created_at := None; ChatStore.isStreaming := Some false |} ].
Proof. vm_compute. reflexivity. Qed.

(** The same scenario from the bytes of the response on. *)
Example chat_turn_from_bytes :
  ChatStore.messages
    (Chat.store
       (fst (Chat.handleSend
               (Endpoints.sendChatMessage greeting_server Endpoints.parse_event)
               (chat_page [] "Привет")))) =
  [ Chat.user_message (js "Привет");
    {| ChatStore.id := Some 42%Z; ChatStore.role := ChatStore.assistant;
       ChatStore.content := js "Привет!"; ChatStore.rating := None;
       ChatStore.created_at := None; ChatStore.isStreaming := Some false |} ].
Proof. vm_compute. reflexivity. Qed.

(** ** History *)

(** C7 (as the code has it): [prependMessages] puts the page, as it is,
    ahead of the current list and drops nothing; the merged list has no
    two messages with the same server id exactly when the page has none,
    the current list has none, and no id of the page is in the current
    list. *)
Theorem prependMessages_unique_ids :
  forall (page : list ChatStore.ChatMsg) (s : ChatStore.ChatState),
    ChatStore.messages (ChatStore.prependMessages page s) = page ++ ChatStore.messages s
    /\ (NoDup (ChatStore.ids (ChatStore.messages (ChatStore.prependMessages page s)))
        <-> NoDup (ChatStore.ids page)
            /\ (forall i, i ∈ ChatStore.ids page -> i ∉ ChatStore.ids (ChatStore.messages s))
            /\ NoDup (ChatStore.ids (ChatStore.messages s))).
Proof.
  intros page s. split; [done|].
  unfold ChatStore.prependMessages, ChatStore.ids. simpl.
  rewrite omap_app. apply NoDup_app.
Qed.

(** C7 (as stated) fails: a page that holds a message the list already
    has is prepended whole, and the server id 7 then occurs twice. *)
Lemma prependMessages_repeats_id :
  NoDup (ChatStore.ids [answer 7 "old"])
  /\ NoDup (ChatStore.ids (ChatStore.messages (store_of [answer 7 "old"])))
  /\ ~ NoDup (ChatStore.ids
               (ChatStore.messages
                  (ChatStore.prependMessages [answer 7 "old"] (store_of [answer 7 "old"])))).
Proof.
  split; [|split].
  - apply NoDup_singleton.
  - apply NoDup_singleton.
  - intros H. apply NoDup_cons in H as [Hin _]. apply Hin. simpl. left.
Qed.

(** C8: [handleAudit] returns at its guard, leaving the page as it is and
    issuing no request, whenever the trimmed text is shorter than 50 code
    units; with at least 50 and no audit in flight it issues the audit
    request with the text. *)
Theorem handleAudit_min_length :
  forall (send : jsstring -> list StreamEvent * Client.completion) (p : Audit.State),
    (length (JSString.trim (Audit.text p)) < 50 ->
       Audit.handleAudit send p = (p, []))
    /\ (50 <= length (JSString.trim (Audit.text p)) -> Audit.isAuditing p = false ->
        snd (Audit.handleAudit send p) = [PostAudit (Audit.text p)]).
Proof.
  intros send p. split.
  - intros H. unfold Audit.handleAudit. by rewrite rejects_short.
  - intros H Hidle. unfold Audit.handleAudit. rewrite rejects_long_idle by done.
    by destruct (send (Audit.text p)).
Qed.

Lemma handleAudit_min_length_witness :
  length (JSString.trim (padded 49)) = 49
  /\ Audit.handleAudit send_answer (audit_page (padded 49)) = (audit_page (padded 49), [])
  /\ length (JSString.trim (padded 50)) = 50
  /\ snd (Audit.handleAudit send_answer (audit_page (padded 50))) = [PostAudit (padded 50)].
Proof.
  split; [reflexivity|]. split; [|split; [reflexivity|]].
  - apply (handleAudit_min_length send_answer (audit_page (padded 49))).
    vm_compute. lia.
  - apply (handleAudit_min_length send_answer (audit_page (padded 50))).
    + vm_compute. lia.
    + reflexivity.
Defined.

(** ** Ratings *)
Section RatingFacts.
Import ChatStore.

Lemma rate_rate mid r r' m : rate mid r' (rate mid r m) = rate mid r' m.
Proof.
  unfold rate. destruct (bool_decide (id m = Some mid)) eqn:E; simpl.
  - by rewrite E.
  - by rewrite E.
Qed.

Lemma updateRating_lookup mid r s i :
  messages (updateRating mid r s) !! i = rate mid r <$> messages s !! i.
Proof. unfold updateRating. simpl. apply list_lookup_fmap. Qed.

Lemma updateRating_twice mid r r' s :
  updateRating mid r' (updateRating mid r s) = updateRating mid r' s.
Proof.
  unfold updateRating, set_messages. simpl. f_equal.
  rewrite <- list_fmap_compose. apply list_fmap_ext.
  intros i m _. apply rate_rate.
Qed.

Lemma rate_same_but_rating mid r m : same_but_rating m (rate mid r m).
Proof. unfold rate. by destruct (bool_decide _). Qed.

Lemma rate_rating mid r m :
  rating (rate mid r m) =
    if bool_decide (id m = Some mid) then Some (Some r) else rating m.
Proof. unfold rate. by destruct (bool_decide _). Qed.
End RatingFacts.

(** C9: rating a message twice with the same rating leaves the page as
    rating it once does; rating +1 and then -1 leaves every message that
    carries the id with the rating -1 and otherwise as it was. *)
Theorem handleRate_idempotent_last_wins :
  forall (mid r : Z) (p : Chat.State),
    fst (Chat.handleRate mid r (fst (Chat.handleRate mid r p))) =
      fst (Chat.handleRate mid r p)
    /\ forall (i : nat) (m : ChatStore.ChatMsg),
         ChatStore.messages (Chat.store p) !! i = Some m ->
         ChatStore.id m = Some mid ->
         exists m',
           ChatStore.messages
             (Chat.store (fst (Chat.handleRate mid (-1)
                                 (fst (Chat.handleRate mid 1 p))))) !! i = Some m'
           /\ ChatStore.rating m' = Some (Some (-1)%Z)
           /\ same_but_rating m m'.
Proof.
  intros mid r p. split.
  - unfold Chat.handleRate. cbn [fst Chat.store Chat.input Chat.isSending].
    by rewrite updateRating_twice.
  - intros i m Hi Hid. unfold Chat.handleRate. cbn [fst Chat.store].
    rewrite updateRating_twice, updateRating_lookup, Hi. simpl.
    eexists. split; [done|]. split.
    + rewrite rate_rating. by rewrite bool_decide_eq_true_2.
    + apply rate_same_but_rating.
Qed.

Lemma handleRate_idempotent_last_wins_witness :
  fst (Chat.handleRate 42 1 (fst (Chat.handleRate 42 1 answered_page))) =
    fst (Chat.handleRate 42 1 answered_page)
  /\ exists m',
       ChatStore.messages
         (Chat.store (fst (Chat.handleRate 42 (-1)
                             (fst (Chat.handleRate 42 1 answered_page))))) !! 1%nat
       = Some m'
       /\ ChatStore.rating m' = Some (Some (-1)%Z)
       /\ same_but_rating (answer 42 "a") m'.
Proof.
  split.
  - apply (handleRate_idempotent_last_wins 42 1 answered_page).
  - apply (proj2 (handleRate_idempotent_last_wins 42 1 answered_page)
             1%nat (answer 42 "a")); reflexivity.
Defined.

(** C10: [updateRating] keeps the length and the order of the list and
    the other fields of the store; the message at each position keeps its
    id, role, content, date and streaming flag, and its rating becomes the
    new one when its id is the given one, at every such position, and
    stays as it was otherwise. *)
Theorem updateRating_frame :
  forall (mid r : Z) (s : ChatStore.ChatState),
    length (ChatStore.messages (ChatStore.updateRating mid r s)) =
      length (ChatStore.messages s)
    /\ ChatStore.isLoading (ChatStore.updateRating mid r s) = ChatStore.isLoading s
    /\ ChatStore.hasMore (ChatStore.updateRating mid r s) = ChatStore.hasMore s
    /\ forall (i : nat) (m : ChatStore.ChatMsg),
         ChatStore.messages s !! i = Some m ->
         exists m',
           ChatStore.messages (ChatStore.updateRating mid r s) !! i = Some m'
           /\ same_but_rating m m'
           /\ (ChatStore.id m = Some mid -> ChatStore.rating m' = Some (Some r))
           /\ (ChatStore.id m ≠ Some mid -> m' = m).
Proof.
  intros mid r s. split; [|split; [done|split; [done|]]].
  - unfold ChatStore.updateRating. simpl. apply length_fmap.
  - intros i m Hi. exists (ChatStore.rate mid r m).
    rewrite updateRating_lookup, Hi. split; [done|].
    split; [apply rate_same_but_rating|]. split.
    + intros Hid. rewrite rate_rating. by rewrite bool_decide_eq_true_2.
    + intros Hid. unfold ChatStore.rate. by rewrite bool_decide_eq_false_2.
Qed.

Lemma updateRating_frame_witness :
  exists m',
    ChatStore.messages (ChatStore.updateRating 7 1 repeated_id_store) !! 2%nat = Some m'
    /\ same_but_rating (answer 7 "b") m'
    /\ (ChatStore.id (answer 7 "b") = Some 7%Z -> ChatStore.rating m' = Some (Some 1%Z))
    /\ (ChatStore.id (answer 7 "b") ≠ Some 7%Z -> m' = answer 7 "b").
Proof.
  apply (proj2 (proj2 (proj2 (updateRating_frame 7 1 repeated_id_store)))
           2%nat (answer 7 "b")).
  reflexivity.
Defined.

(** * Further properties of the store, the pages and the client *)

(** ** store/chat.ts *)
Section MoreStoreFacts.
Import ChatStore.
Implicit Types (s : ChatState) (m : ChatMsg) (pre msgs : list ChatMsg).

Lemma appendToLast_nil c s : messages s = [] -> appendToLast c s = s.
Proof.
  intros Hs. unfold appendToLast. rewrite Hs. simpl.
  rewrite <- Hs. apply set_messages_id.
Qed.

Lemma finishStreaming_nil i s : messages s = [] -> finishStreaming i s = s.
Proof.
  intros Hs. unfold finishStreaming. rewrite Hs. simpl.
  rewrite <- Hs. apply set_messages_id.
Qed.

Lemma appendToLast_other c s pre m :
  messages s = pre ++ [m] -> role m ≠ assistant -> appendToLast c s = s.
Proof.
  intros Hs Hr. unfold appendToLast. rewrite Hs, lookup_last_snoc.
  rewrite bool_decide_eq_false_2 by done. rewrite <- Hs. apply set_messages_id.
Qed.

Lemma finishStreaming_other i s pre m :
  messages s = pre ++ [m] -> role m ≠ assistant -> finishStreaming i s = s.
Proof.
  intros Hs Hr. unfold finishStreaming. rewrite Hs, lookup_last_snoc.
  rewrite (bool_decide_eq_false_2 (role m = assistant)) by done.
  simpl. rewrite <- Hs. apply set_messages_id.
Qed.

(** A list is empty or has a last element. *)
Lemma snoc_cases msgs : msgs = [] \/ exists pre m, msgs = pre ++ [m].
Proof. destruct msgs as [|m pre _] using rev_ind; [by left|right; eauto]. Qed.

(** What [finishStreaming] does in each case of its guard. *)
Lemma finishStreaming_cases s :
  (forall i, finishStreaming i s = s)
  \/ exists pre m,
       messages s = pre ++ [m] /\ role m = assistant /\ isStreaming m = Some true
       /\ forall i,
            finishStreaming i s = set_messages (pre ++ [with_id_finished m i]) s.
Proof.
  destruct (snoc_cases (messages s)) as [Hs|(pre & m & Hs)].
  - left. intros i. by apply finishStreaming_nil.
  - destruct (decide (role m = assistant)) as [Hr|Hr].
    + destruct (decide (isStreaming m = Some true)) as [Hst|Hst].
      * right. exists pre, m. repeat (split; [done|]).
        intros i. by apply finishStreaming_streaming.
      * left. intros i. by apply (finishStreaming_idle i s pre m).
    + left. intros i. by apply (finishStreaming_other i s pre m).
Qed.

(** What [appendToLast] does in each case of its guard. *)
Lemma appendToLast_cases s :
  (forall c, appendToLast c s = s)
  \/ exists pre m,
       messages s = pre ++ [m] /\ role m = assistant
       /\ forall c,
            appendToLast c s =
              set_messages (pre ++ [with_content m (content m ++ c)]) s.
Proof.
  destruct (snoc_cases (messages s)) as [Hs|(pre & m & Hs)].
  - left. intros c. by apply appendToLast_nil.
  - destruct (decide (role m = assistant)) as [Hr|Hr].
    + right. exists pre, m. repeat (split; [done|]).
      intros c. by apply appendToLast_assistant.
    + left. intros c. by apply (appendToLast_other c s pre m).
Qed.

Lemma lookup_snoc_before {A} (pre : list A) (x y : A) i :
  i + 1 < length (pre ++ [x]) -> (pre ++ [y]) !! i = (pre ++ [x]) !! i.
Proof.
  rewrite length_app. simpl. intros Hi.
  by rewrite !lookup_app_l by lia.
Qed.
End MoreStoreFacts.

(** X1: the first [finishStreaming] wins.  On every store, a second call
    with any other identifier changes nothing, so the identifier given to
    a message at its finalization is never overwritten. *)
Theorem finishStreaming_first_wins :
  forall (i j : Z) (s : ChatStore.ChatState),
    ChatStore.finishStreaming j (ChatStore.finishStreaming i s) =
      ChatStore.finishStreaming i s.
Proof.
  intros i j s.
  destruct (finishStreaming_cases s) as [Hid|(pre & m & Hs & Hr & Hst & Hrun)].
  - by rewrite !Hid.
  - rewrite Hrun.
    apply (finishStreaming_idle j _ pre (ChatStore.with_id_finished m i)); done.
Qed.

(** X2: two [appendToLast] calls in a row are one call with the two
    texts joined, on every store: how a text is cut into tokens does not
    show in the message. *)
Theorem appendToLast_compose :
  forall (c1 c2 : jsstring) (s : ChatStore.ChatState),
    ChatStore.appendToLast c2 (ChatStore.appendToLast c1 s) =
      ChatStore.appendToLast (c1 ++ c2) s.
Proof.
  intros c1 c2 s.
  destruct (appendToLast_cases s) as [Hid|(pre & m & Hs & Hr & Hrun)].
  - by rewrite !Hid.
  - rewrite !Hrun.
    rewrite (appendToLast_assistant c2 _ pre
               (ChatStore.with_content m (ChatStore.content m ++ c1))) by done.
    unfold ChatStore.with_content, ChatStore.set_messages. simpl.
    by rewrite <- app_assoc.
Qed.

(** X3: [appendToLast] and [finishStreaming] keep the length of the list,
    the loading and has-more flags, and every message but the last. *)
Theorem streaming_ops_touch_only_last :
  forall (c : jsstring) (j : Z) (s : ChatStore.ChatState),
    let after_append := ChatStore.appendToLast c s in
    let after_finish := ChatStore.finishStreaming j s in
    length (ChatStore.messages after_append) = length (ChatStore.messages s)
    /\ length (ChatStore.messages after_finish) = length (ChatStore.messages s)
    /\ ChatStore.isLoading after_append = ChatStore.isLoading s
    /\ ChatStore.hasMore after_append = ChatStore.hasMore s
    /\ ChatStore.isLoading after_finish = ChatStore.isLoading s
    /\ ChatStore.hasMore after_finish = ChatStore.hasMore s
    /\ forall i : nat,
         i + 1 < length (ChatStore.messages s) ->
         ChatStore.messages after_append !! i = ChatStore.messages s !! i
         /\ ChatStore.messages after_finish !! i = ChatStore.messages s !! i.
Proof.
  intros c j s after_append after_finish. subst after_append after_finish.
  destruct (appendToLast_cases s) as [Ha|(pre & m & Hs & Hr & Ha)];
    destruct (finishStreaming_cases s) as [Hf|(pre' & m' & Hs' & Hr' & Hst' & Hf)];
    rewrite ?Ha, ?Hf; simpl.
  - by do 6 (split; [done|]).
  - rewrite Hs', !length_app. simpl. do 6 (split; [done|]).
    intros i Hi. split; [done|]. apply lookup_snoc_before.
    by rewrite length_app.
  - rewrite Hs, !length_app. simpl. do 6 (split; [done|]).
    intros i Hi. split; [|done]. apply lookup_snoc_before.
    by rewrite length_app.
  - rewrite Hs in Hs'. apply app_inj_tail in Hs' as [<- <-].
    rewrite Hs, !length_app. simpl. do 6 (split; [done|]).
    intros i Hi. split; apply lookup_snoc_before; by rewrite length_app.
Qed.

Lemma streaming_ops_touch_only_last_witness :
  ChatStore.messages (ChatStore.appendToLast (js "x") streaming_store) !! 0%nat =
    ChatStore.messages streaming_store !! 0%nat
  /\ ChatStore.messages (ChatStore.finishStreaming 5 streaming_store) !! 0%nat =
       ChatStore.messages streaming_store !! 0%nat.
Proof.
  apply (streaming_ops_touch_only_last (js "x") 5 streaming_store).
  vm_compute. lia.
Defined.

(** X4: on a list that is not empty, prepending a page of older messages
    commutes with [appendToLast] and with [finishStreaming]: the message a
    stream writes to stays the last one. *)
Theorem prependMessages_keeps_stream_target :
  forall (page : list ChatStore.ChatMsg) (c : jsstring) (i : Z)
         (s : ChatStore.ChatState),
    ChatStore.messages s ≠ [] ->
    ChatStore.appendToLast c (ChatStore.prependMessages page s) =
      ChatStore.prependMessages page (ChatStore.appendToLast c s)
    /\ ChatStore.finishStreaming i (ChatStore.prependMessages page s) =
         ChatStore.prependMessages page (ChatStore.finishStreaming i s).
Proof.
  intros page c i s Hne.
  destruct (snoc_cases (ChatStore.messages s)) as [Hs|(pre & m & Hs)]; [done|].
  assert (Hp : ChatStore.messages (ChatStore.prependMessages page s) = (page ++ pre) ++ [m]).
  { simpl. by rewrite Hs, app_assoc. }
  split.
  - destruct (decide (ChatStore.role m = ChatStore.assistant)) as [Hr|Hr].
    + rewrite (appendToLast_assistant c _ (page ++ pre) m),
        (appendToLast_assistant c s pre m) by done.
      unfold ChatStore.prependMessages, ChatStore.set_messages. simpl.
      by rewrite app_assoc.
    + by rewrite (appendToLast_other c _ (page ++ pre) m),
        (appendToLast_other c s pre m).
  - destruct (decide (ChatStore.role m = ChatStore.assistant)) as [Hr|Hr].
    + destruct (decide (ChatStore.isStreaming m = Some true)) as [Hst|Hst].
      * rewrite (finishStreaming_streaming i _ (page ++ pre) m),
          (finishStreaming_streaming i s pre m) by done.
        unfold ChatStore.prependMessages, ChatStore.set_messages. simpl.
        by rewrite app_assoc.
      * by rewrite (finishStreaming_idle i _ (page ++ pre) m),
          (finishStreaming_idle i s pre m).
    + by rewrite (finishStreaming_other i _ (page ++ pre) m),
        (finishStreaming_other i s pre m).
Qed.

Lemma prependMessages_keeps_stream_target_witness :
  ChatStore.appendToLast (js "x") (ChatStore.prependMessages older_page streaming_store) =
    ChatStore.prependMessages older_page (ChatStore.appendToLast (js "x") streaming_store)
  /\ ChatStore.finishStreaming 5 (ChatStore.prependMessages older_page streaming_store) =
       ChatStore.prependMessages older_page (ChatStore.finishStreaming 5 streaming_store).
Proof.
  apply (prependMessages_keeps_stream_target older_page (js "x") 5 streaming_store).
  vm_compute. discriminate.
Defined.

Section MoreRatingFacts.
Import ChatStore.

Lemma rate_id mid r m : id (rate mid r m) = id m.
Proof. unfold rate. by destruct (bool_decide _). Qed.

Lemma rate_absent mid r m : id m ≠ Some mid -> rate mid r m = m.
Proof. intros H. unfold rate. by rewrite bool_decide_eq_false_2. Qed.

Lemma rate_comm a b r r' m :
  a ≠ b -> rate a r (rate b r' m) = rate b r' (rate a r m).
Proof.
  intros Hab. unfold rate.
  destruct (bool_decide (id m = Some b)) eqn:Eb;
    destruct (bool_decide (id m = Some a)) eqn:Ea; simpl; rewrite ?Ea, ?Eb; try done.
  apply bool_decide_eq_true_1 in Ea, Eb. congruence.
Qed.
End MoreRatingFacts.

(** X5: rating an identifier that no message of the list carries leaves
    the page as it is, and the feedback request is posted all the same. *)
Theorem handleRate_absent_id :
  forall (mid r : Z) (p : Chat.State),
    mid ∉ ChatStore.ids (ChatStore.messages (Chat.store p)) ->
    Chat.handleRate mid r p = (p, [PostChatFeedback mid r]).
Proof.
  intros mid r p Hmid. unfold Chat.handleRate. f_equal.
  assert (Hmap : ChatStore.rate mid r <$> ChatStore.messages (Chat.store p) =
                 ChatStore.messages (Chat.store p)).
  { rewrite <- (list_fmap_id (ChatStore.messages (Chat.store p))) at 2.
    apply list_fmap_ext. intros i m Hi. apply rate_absent.
    intros Hid. apply Hmid. apply list_elem_of_omap. exists m. split; [|done].
    apply list_elem_of_lookup. eauto. }
  unfold ChatStore.updateRating. rewrite Hmap, set_messages_id. by destruct p.
Qed.

Lemma handleRate_absent_id_witness :
  Chat.handleRate 99 1 answered_page = (answered_page, [PostChatFeedback 99 1]).
Proof.
  apply (handleRate_absent_id 99 1 answered_page).
  refine (bool_decide_unpack _ _). vm_compute. exact I.
Defined.

(** X6: ratings of two different identifiers commute. *)
Theorem updateRating_commutes :
  forall (a b r r' : Z) (s : ChatStore.ChatState),
    a ≠ b ->
    ChatStore.updateRating a r (ChatStore.updateRating b r' s) =
      ChatStore.updateRating b r' (ChatStore.updateRating a r s).
Proof.
  intros a b r r' s Hab. unfold ChatStore.updateRating, ChatStore.set_messages. simpl.
  f_equal. rewrite <- !list_fmap_compose. apply list_fmap_ext.
  intros i m _. by apply rate_comm.
Qed.

Lemma updateRating_commutes_witness :
  ChatStore.updateRating 7 1 (ChatStore.updateRating 42 (-1) repeated_id_store) =
    ChatStore.updateRating 42 (-1) (ChatStore.updateRating 7 1 repeated_id_store).
Proof. apply (updateRating_commutes 7 42 1 (-1) repeated_id_store). lia. Defined.

(** ** pages/Chat.tsx: whole turns *)
Section TurnFacts.
Import JSString ChatStore Chat.

Lemma settles_false ev :
  settles ev = false ->
  Event.type ev ≠ s_error
  /\ (bool_decide (Event.type ev = s_done) && truthy_id (Event.message_id ev)) = false.
Proof.
  unfold settles. intros [He Hd]%orb_false_elim. split; [|done].
  by apply bool_decide_eq_false_1 in He.
Qed.

(** An event that does not settle the message leaves its streaming flag
    and its identifier as they are. *)
Lemma on_event_quiet ev s pre a :
  settles ev = false ->
  messages s = pre ++ [a] -> role a = assistant ->
  exists a',
    on_event ev s = set_messages (pre ++ [a']) s
    /\ role a' = assistant
    /\ isStreaming a' = isStreaming a
    /\ id a' = id a.
Proof.
  intros [Hne Hdone]%settles_false Hs Hr. unfold on_event.
  rewrite Hdone. rewrite (bool_decide_eq_false_2 (Event.type ev = s_error)) by done.
  destruct (bool_decide (Event.type ev = s_token) && truthy_content (Event.content ev)).
  - eexists. split; [by apply appendToLast_assistant|]. done.
  - exists a. by rewrite <- Hs, set_messages_id.
Qed.

Lemma consume_quiet evs : forall s pre a,
  Forall (fun ev => settles ev = false) evs ->
  messages s = pre ++ [a] -> role a = assistant ->
  exists a',
    consume evs s = set_messages (pre ++ [a']) s
    /\ role a' = assistant
    /\ isStreaming a' = isStreaming a
    /\ id a' = id a.
Proof.
  induction evs as [|ev evs IH]; intros s pre a Hall Hs Hr.
  - exists a. simpl. by rewrite <- Hs, set_messages_id.
  - apply Forall_cons in Hall as [Hev Hall].
    destruct (on_event_quiet ev s pre a Hev Hs Hr) as (a1 & H1 & Hr1 & Hst1 & Hid1).
    destruct (IH (on_event ev s) pre a1 Hall) as (a2 & H2 & Hr2 & Hst2 & Hid2);
      [by rewrite H1|done|].
    exists a2. change (consume (ev :: evs) s) with (consume evs (on_event ev s)).
    rewrite H2, H1. repeat split; congruence.
Qed.

Lemma consume_app evs1 evs2 s :
  consume (evs1 ++ evs2) s = consume evs2 (consume evs1 s).
Proof. unfold consume. apply fold_left_app. Qed.

(** A "done" event with a truthy identifier finalizes a streaming last
    message. *)
Lemma on_event_done ev i s pre m :
  Event.type ev = s_done -> Event.message_id ev = Some i -> i ≠ 0%Z ->
  messages s = pre ++ [m] -> role m = assistant -> isStreaming m = Some true ->
  on_event ev s = set_messages (pre ++ [with_id_finished m i]) s.
Proof.
  intros Hty Hid Hi Hs Hr Hst. unfold on_event. rewrite Hty, Hid.
  rewrite (bool_decide_eq_false_2 (s_done = s_token)) by discriminate.
  rewrite (bool_decide_eq_true_2 (s_done = s_done)) by done.
  simpl. rewrite (proj2 (Z.eqb_neq i 0) Hi). simpl.
  by apply finishStreaming_streaming.
Qed.
End TurnFacts.

(** X7: a turn whose stream yields events of type "token" and then a
    "done" event with a non-zero identifier, and closes, appends the user
    message and one finalized assistant message: its content is the
    contents of the tokens joined in order, its identifier is the one of
    the "done" event, and the send flag and the input are cleared. *)
Theorem handleSend_finalizes_answer :
  forall (send : jsstring -> list StreamEvent * Client.completion) (p : Chat.State)
         (evs : list StreamEvent) (d : StreamEvent) (i : Z),
    JSString.trim (Chat.input p) ≠ [] -> Chat.isSending p = false ->
    send (JSString.trim (Chat.input p)) = (evs ++ [d], Client.Returned) ->
    Forall (fun ev => Event.type ev = s_token) evs ->
    Event.type d = s_done -> Event.message_id d = Some i -> i ≠ 0%Z ->
    Chat.handleSend send p =
      ({| Chat.store :=
            ChatStore.set_messages
              (ChatStore.messages (Chat.store p)
               ++ [Chat.user_message (JSString.trim (Chat.input p));
                   finalized_answer i evs])
              (Chat.store p);
          Chat.input := []; Chat.isSending := false |},
       [PostChat (JSString.trim (Chat.input p))]).
Proof.
  intros send p evs d i Ht Hs Hsend Htok Hty Hid Hi.
  unfold Chat.handleSend. rewrite handleSend_sync_accepts by done.
  unfold Chat.handleSend_stream. rewrite Hsend. cbn [Chat.store Chat.input].
  rewrite consume_app.
  set (pre := ChatStore.messages (Chat.store p)
              ++ [Chat.user_message (JSString.trim (Chat.input p))]).
  rewrite (consume_tokens evs _ pre Chat.placeholder);
    [|by subst pre; simpl; rewrite <- app_assoc|done|done].
  change (Chat.consume [d] ?s) with (Chat.on_event d s).
  rewrite (on_event_done d i _ pre
             (ChatStore.with_content Chat.placeholder
                (ChatStore.content Chat.placeholder ++ concat (contents evs)))
             Hty Hid Hi); [|done|done|done].
  subst pre. unfold ChatStore.set_messages. simpl. by rewrite <- app_assoc.
Qed.

Lemma handleSend_finalizes_answer_witness :
  Chat.handleSend send_answer (chat_page [answer 1 "old"] " hi ") =
    ({| Chat.store :=
          ChatStore.set_messages
            ([answer 1 "old"]
             ++ [Chat.user_message (js "hi"); finalized_answer 42 [token (js "a")]])
            (store_of [answer 1 "old"]);
        Chat.input := []; Chat.isSending := false |},
     [PostChat (js "hi")]).
Proof.
  apply (handleSend_finalizes_answer send_answer (chat_page [answer 1 "old"] " hi ")
           [token (js "a")] (done 42) 42).
  - vm_compute. discriminate.
  - reflexivity.
  - reflexivity.
  - repeat constructor.
  - reflexivity.
  - reflexivity.
  - lia.
Defined.

(** X8: a turn whose stream closes without an "error" event and without
    a "done" event that carries a truthy identifier leaves the assistant
    message of the exchange streaming and without identifier, although
    the send flag is cleared. *)
Theorem handleSend_leaves_streaming :
  forall (send : jsstring -> list StreamEvent * Client.completion) (p : Chat.State)
         (evs : list StreamEvent),
    JSString.trim (Chat.input p) ≠ [] -> Chat.isSending p = false ->
    send (JSString.trim (Chat.input p)) = (evs, Client.Returned) ->
    Forall (fun ev => settles ev = false) evs ->
    Chat.isSending (fst (Chat.handleSend send p)) = false
    /\ exists a,
         ChatStore.messages (Chat.store (fst (Chat.handleSend send p))) =
           ChatStore.messages (Chat.store p)
           ++ [Chat.user_message (JSString.trim (Chat.input p)); a]
         /\ ChatStore.role a = ChatStore.assistant
         /\ ChatStore.isStreaming a = Some true
         /\ ChatStore.id a = None.
Proof.
  intros send p evs Ht Hs Hsend Hall.
  unfold Chat.handleSend. rewrite handleSend_sync_accepts by done.
  unfold Chat.handleSend_stream. rewrite Hsend. cbn [Chat.store Chat.input fst].
  set (pre := ChatStore.messages (Chat.store p)
              ++ [Chat.user_message (JSString.trim (Chat.input p))]).
  destruct (consume_quiet evs
              (ChatStore.set_messages
                 (ChatStore.messages (Chat.store p)
                  ++ [Chat.user_message (JSString.trim (Chat.input p)); Chat.placeholder])
                 (Chat.store p))
              pre Chat.placeholder Hall) as (a & Hrun & Hr & Hst & Hid).
  { subst pre. simpl. by rewrite <- app_assoc. }
  { done. }
  split; [done|]. exists a. rewrite Hrun. subst pre. simpl.
  rewrite <- app_assoc. by repeat split.
Qed.

Lemma handleSend_leaves_streaming_witness :
  Chat.isSending (fst (Chat.handleSend send_no_id (chat_page [] "hi"))) = false
  /\ exists a,
       ChatStore.messages (Chat.store (fst (Chat.handleSend send_no_id (chat_page [] "hi")))) =
         [] ++ [Chat.user_message (js "hi"); a]
       /\ ChatStore.role a = ChatStore.assistant
       /\ ChatStore.isStreaming a = Some true
       /\ ChatStore.id a = None.
Proof.
  apply (handleSend_leaves_streaming send_no_id (chat_page [] "hi")
           [token (js "a"); token (js "b");
            {| Event.type := s_done; Event.content := None; Event.message_id := None |}]).
  - vm_compute. discriminate.
  - reflexivity.
  - reflexivity.
  - repeat constructor.
Defined.

(** X9: when the request of a chat turn is rejected or answered with a
    status that is not ok, the reader throws before it yields, and the
    turn ends with the user message followed by an assistant message that
    holds the fallback text, has the identifier 0 and is not streaming. *)
Theorem handleSend_request_fails :
  forall (T_parse : jsstring -> option StreamEvent)
         (fetch : Request -> Client.fetch_result) (p : Chat.State),
    JSString.trim (Chat.input p) ≠ [] -> Chat.isSending p = false ->
    (fetch (PostChat (JSString.trim (Chat.input p))) = Client.Rejected
     \/ exists res, fetch (PostChat (JSString.trim (Chat.input p))) = Client.Resolved res
                    /\ Client.ok res = false) ->
    Chat.handleSend (Endpoints.sendChatMessage fetch T_parse) p =
      ({| Chat.store :=
            ChatStore.set_messages
              (ChatStore.messages (Chat.store p)
               ++ [Chat.user_message (JSString.trim (Chat.input p)); failed_answer])
              (Chat.store p);
          Chat.input := []; Chat.isSending := false |},
       [PostChat (JSString.trim (Chat.input p))]).
Proof.
  intros T_parse fetch p Ht Hs Hfetch.
  assert (Hsend : Endpoints.sendChatMessage fetch T_parse (JSString.trim (Chat.input p))
                  = ([], Client.Threw)).
  { unfold Endpoints.sendChatMessage, Client.apiStream.
    destruct Hfetch as [-> | (res & -> & Hok)]; [done|]. by rewrite Hok. }
  unfold Chat.handleSend. rewrite handleSend_sync_accepts by done.
  unfold Chat.handleSend_stream. rewrite Hsend. cbn [Chat.store Chat.input Chat.consume fold_left].
  unfold Chat.on_throw.
  set (pre := ChatStore.messages (Chat.store p)
              ++ [Chat.user_message (JSString.trim (Chat.input p))]).
  rewrite (appendToLast_assistant _ _ pre Chat.placeholder);
    [|by subst pre; simpl; rewrite <- app_assoc|done].
  rewrite (finishStreaming_streaming 0 _ pre
             (ChatStore.with_content Chat.placeholder
                (ChatStore.content Chat.placeholder ++ Chat.fallback_thrown)));
    [|done|done|done].
  subst pre. unfold ChatStore.set_messages. simpl. by rewrite <- app_assoc.
Qed.

Lemma handleSend_request_fails_witness :
  Chat.handleSend (Endpoints.sendChatMessage failing_server Endpoints.parse_event)
    (chat_page [] "hi") =
    ({| Chat.store :=
          ChatStore.set_messages ([] ++ [Chat.user_message (js "hi"); failed_answer])
            (store_of []);
        Chat.input := []; Chat.isSending := false |},
     [PostChat (js "hi")]).
Proof.
  apply (handleSend_request_fails Endpoints.parse_event failing_server (chat_page [] "hi")).
  - vm_compute. discriminate.
  - reflexivity.
  - right. eexists. split; reflexivity.
Defined.

(** ** [trim] as the pages use it *)
Section TrimFacts.
Import JSString.



Lemma trimStart_suffix s : exists pre, s = pre ++ trimStart s.
Proof.
  induction s as [|x s [pre IH]]; simpl; [by exists []|].
  destruct (is_space x).
  - exists (x :: pre). simpl. by f_equal.
  - by exists [].
Qed.

Lemma length_trimStart s : length (trimStart s) <= length s.
Proof.
  destruct (trimStart_suffix s) as [pre H]. rewrite H at 2.
  rewrite length_app. lia.
Qed.

Lemma trimEnd_prefix s : exists suf, s = trimEnd s ++ suf.
Proof.
  unfold trimEnd. destruct (trimStart_suffix (rev s)) as [pre H].
  exists (rev pre). apply (f_equal (@rev N)) in H.
  by rewrite rev_involutive, rev_app_distr in H.
Qed.

Lemma length_trimEnd s : length (trimEnd s) <= length s.
Proof.
  destruct (trimEnd_prefix s) as [suf H]. rewrite H at 2.
  rewrite length_app. lia.
Qed.

Lemma length_trim s : length (trim s) <= length s.
Proof.
  unfold trim. pose proof (length_trimEnd (trimStart s)).
  pose proof (length_trimStart s). lia.
Qed.






End TrimFacts.



(** X11: the submit button of the audit page tests the length of the
    text as typed while the handler tests the trimmed length.  Whenever
    the handler accepts, the button is enabled; and on an idle page whose
    text has 50 units or more but fewer than 50 once trimmed, the button
    is enabled and the click does nothing. *)
Theorem audit_button_and_guard :
  forall (send : jsstring -> list StreamEvent * Client.completion) (p : Audit.State),
    (Audit.rejects p = false -> AuditView.submit_disabled p = false)
    /\ (50 <= length (Audit.text p) ->
        length (JSString.trim (Audit.text p)) < 50 ->
        Audit.isAuditing p = false ->
        AuditView.submit_disabled p = false /\ Audit.handleAudit send p = (p, [])).
Proof.
  intros send p. split.
  - unfold Audit.rejects, AuditView.submit_disabled, AuditView.isValid, AuditView.charCount.
    intros [[_ Hlen]%orb_false_elim Hidle]%orb_false_elim.
    rewrite Hidle, orb_false_r. apply negb_false_iff, Nat.leb_le.
    apply Nat.ltb_ge in Hlen. pose proof (length_trim (Audit.text p)). lia.
  - intros Hlen Htrim Hidle. split.
    + unfold AuditView.submit_disabled, AuditView.isValid, AuditView.charCount.
      rewrite Hidle, orb_false_r. by apply negb_false_iff, Nat.leb_le.
    + unfold Audit.handleAudit. by rewrite rejects_short.
Qed.

Lemma audit_button_and_guard_witness :
  (AuditView.submit_disabled (audit_page (padded 50)) = false)
  /\ (AuditView.submit_disabled (audit_page blank_text) = false
      /\ Audit.handleAudit send_answer (audit_page blank_text) = (audit_page blank_text, [])).
Proof.
  split.
  - apply (proj1 (audit_button_and_guard send_answer (audit_page (padded 50)))).
    vm_compute. reflexivity.
  - apply (proj2 (audit_button_and_guard send_answer (audit_page blank_text))).
    + vm_compute. lia.
    + vm_compute. lia.
    + reflexivity.
Defined.

(** ** pages/Audit.tsx: the result of a turn *)
Section AuditResultFacts.
Import JSString Audit.

Lemma audit_consume_app evs1 evs2 r :
  consume (evs1 ++ evs2) r = consume evs2 (consume evs1 r).
Proof. unfold consume. apply fold_left_app. Qed.

Lemma audit_on_event_token ev r :
  Event.type ev = s_token -> on_event ev r = r ++ default [] (Event.content ev).
Proof.
  intros Hty. unfold on_event. rewrite Hty.
  rewrite (bool_decide_eq_true_2 (s_token = s_token)) by done.
  rewrite (bool_decide_eq_false_2 (s_token = s_done)) by discriminate.
  rewrite (bool_decide_eq_false_2 (s_token = s_error)) by discriminate.
  simpl. destruct (truthy (default [] (Event.content ev))) eqn:E; [done|].
  by rewrite (not_truthy_nil _ E), app_nil_r.
Qed.

Lemma audit_consume_tokens evs : forall r,
  Forall (fun ev => Event.type ev = s_token) evs ->
  consume evs r = r ++ concat (contents evs).
Proof.
  induction evs as [|ev evs IH]; intros r Hall; simpl.
  - by rewrite app_nil_r.
  - apply Forall_cons in Hall as [Hev Hall].
    change (consume (ev :: evs) r) with (consume evs (on_event ev r)).
    by rewrite IH, audit_on_event_token, <- app_assoc.
Qed.

Lemma audit_on_event_error ev r :
  Event.type ev = s_error ->
  on_event ev r = or_else (default [] (Event.content ev)) fallback_error.
Proof.
  intros Hty. unfold on_event. rewrite Hty.
  rewrite (bool_decide_eq_false_2 (s_error = s_token)) by discriminate.
  rewrite (bool_decide_eq_false_2 (s_error = s_done)) by discriminate.
  by rewrite (bool_decide_eq_true_2 (s_error = s_error)).
Qed.

Lemma audit_on_event_done ev r : Event.type ev = s_done -> on_event ev r = r.
Proof.
  intros Hty. unfold on_event. rewrite Hty.
  rewrite (bool_decide_eq_false_2 (s_done = s_token)) by discriminate.
  by rewrite (bool_decide_eq_true_2 (s_done = s_done)).
Qed.
End AuditResultFacts.

(** X12: an audit turn whose stream yields events of type "token" and
    then an event of type "done", with or without identifier, and closes,
    ends idle with the contents of the tokens joined in order as its
    result, whatever the result was before; the request carries the text
    as typed, not trimmed. *)
Theorem handleAudit_result_is_concatenation :
  forall (send : jsstring -> list StreamEvent * Client.completion) (p : Audit.State)
         (evs : list StreamEvent) (d : StreamEvent),
    Audit.rejects p = false ->
    send (Audit.text p) = (evs ++ [d], Client.Returned) ->
    Forall (fun ev => Event.type ev = s_token) evs ->
    Event.type d = s_done ->
    Audit.handleAudit send p =
      ({| Audit.text := Audit.text p; Audit.result := concat (contents evs);
          Audit.isAuditing := false |},
       [PostAudit (Audit.text p)]).
Proof.
  intros send p evs d Hrej Hsend Htok Hd. unfold Audit.handleAudit.
  rewrite Hrej, Hsend. rewrite audit_consume_app.
  rewrite (audit_consume_tokens evs []) by done.
  change (Audit.consume [d] ?r) with (Audit.on_event d r).
  by rewrite audit_on_event_done.
Qed.

Lemma handleAudit_result_is_concatenation_witness :
  Audit.handleAudit send_answer (audit_page (padded 50)) =
    ({| Audit.text := padded 50; Audit.result := concat (contents [token (js "a")]);
        Audit.isAuditing := false |},
     [PostAudit (padded 50)]).
Proof.
  apply (handleAudit_result_is_concatenation send_answer (audit_page (padded 50))
           [token (js "a")] (done 42)).
  - vm_compute. reflexivity.
  - reflexivity.
  - repeat constructor.
  - reflexivity.
Defined.

(** X13: in an audit turn an event of type "error" replaces all that was
    accumulated before it by its content, or by the fallback text when it
    has none; the tokens that follow it are appended to that text. *)
Theorem handleAudit_error_replaces_result :
  forall (send : jsstring -> list StreamEvent * Client.completion) (p : Audit.State)
         (before after : list StreamEvent) (e : StreamEvent),
    Audit.rejects p = false ->
    send (Audit.text p) = (before ++ e :: after, Client.Returned) ->
    Event.type e = s_error ->
    Forall (fun ev => Event.type ev = s_token) after ->
    Audit.result (fst (Audit.handleAudit send p)) =
      JSString.or_else (default [] (Event.content e)) Audit.fallback_error
      ++ concat (contents after).
Proof.
  intros send p before after e Hrej Hsend He Htok. unfold Audit.handleAudit.
  rewrite Hrej, Hsend. cbn [fst Audit.result].
  rewrite audit_consume_app.
  change (Audit.consume (e :: after) ?r) with (Audit.consume after (Audit.on_event e r)).
  by rewrite audit_on_event_error, audit_consume_tokens.
Qed.

Lemma handleAudit_error_replaces_result_witness :
  Audit.result (fst (Audit.handleAudit send_error_then_token (audit_page (padded 50)))) =
    JSString.or_else (default [] (Some (js "boom"))) Audit.fallback_error
    ++ concat (contents [token (js "!")]).
Proof.
  apply (handleAudit_error_replaces_result send_error_then_token (audit_page (padded 50))
           [token (js "par")] [token (js "!")] (error (Some (js "boom")))).
  - vm_compute. reflexivity.
  - reflexivity.
  - reflexivity.
  - repeat constructor.
Defined.

(** ** pages/Chat.tsx: the rendered list and the history *)
Section ViewFacts.
Import ChatStore ChatView.

Lemma key_temp i j m : key i m = KeyTemp j -> i = j.
Proof.
  unfold key. destruct (id m) as [z|]; [destruct (z =? 0)%Z|]; congruence.
Qed.

Lemma key_id i m z : key i m = KeyId z -> truthy_id m = Some z.
Proof.
  unfold key, truthy_id. destruct (id m) as [x|]; [destruct (x =? 0)%Z|]; congruence.
Qed.

Lemma truthy_id_key i m z : truthy_id m = Some z -> key i m = KeyId z.
Proof.
  unfold key, truthy_id. destruct (id m) as [x|]; [destruct (x =? 0)%Z|]; congruence.
Qed.

Lemma NoDup_omap_tail {A B} (f : A -> option B) (a : A) (l : list A) :
  NoDup (omap f (a :: l)) -> NoDup (omap f l).
Proof.
  simpl. destruct (f a); [|done]. by intros [_ H]%NoDup_cons.
Qed.

(** Equal values of a partial function at two positions of a list whose
    image has no duplicate are at the same position. *)
Lemma NoDup_omap_lookup {A B} (f : A -> option B) (l : list A) :
  NoDup (omap f l) ->
  forall i j x y z, l !! i = Some x -> l !! j = Some y ->
                    f x = Some z -> f y = Some z -> i = j.
Proof.
  induction l as [|a l IH]; intros Hnd i j x y z Hi Hj Hx Hy; [done|].
  simpl in Hnd. destruct i as [|i], j as [|j]; simpl in Hi, Hj.
  - done.
  - simplify_eq. rewrite Hx in Hnd. apply NoDup_cons in Hnd as [Hnin _].
    exfalso. apply Hnin. apply list_elem_of_omap. exists y. split; [|done].
    apply list_elem_of_lookup. eauto.
  - simplify_eq. rewrite Hy in Hnd. apply NoDup_cons in Hnd as [Hnin _].
    exfalso. apply Hnin. apply list_elem_of_omap. exists x. split; [|done].
    apply list_elem_of_lookup. eauto.
  - f_equal. apply (IH (NoDup_omap_tail f a l Hnd) i j x y z); done.
Qed.

(** The keys of a list rendered from the position [n] on. *)
Lemma keys_from_NoDup msgs : forall n,
  NoDup (imap (fun i => key (n + i)) msgs) -> NoDup (omap truthy_id msgs).
Proof.
  induction msgs as [|m l IH]; intros n Hnd; [constructor|].
  simpl in Hnd. apply NoDup_cons in Hnd as [Hnin Hnd].
  assert (Htl : NoDup (omap truthy_id l)).
  { apply (IH (S n)). erewrite imap_ext; [exact Hnd|].
    intros i x _. simpl. f_equal. lia. }
  simpl. destruct (truthy_id m) as [z|] eqn:Hz; [|done].
  apply NoDup_cons. split; [|done].
  intros (y & Hy & Hyz)%list_elem_of_omap.
  apply list_elem_of_lookup in Hy as [k Hk].
  apply Hnin. apply list_elem_of_lookup. exists k.
  rewrite list_lookup_imap, Hk. simpl.
  by rewrite (truthy_id_key _ m z Hz), (truthy_id_key _ y z Hyz).
Qed.
End ViewFacts.

(** X14: the keys [msg.id || `temp-${i}`] of the rendered list are
    pairwise different exactly when the truthy identifiers of the list
    are; messages without identifier, and any number of failed messages
    with the identifier 0, never share a key. *)
Theorem keys_unique_iff_ids_unique :
  forall msgs : list ChatStore.ChatMsg,
    NoDup (ChatView.keys msgs) <-> NoDup (omap ChatView.truthy_id msgs).
Proof.
  intros msgs. split.
  - intros H. apply (keys_from_NoDup msgs 0). exact H.
  - intros H. apply NoDup_alt. intros i j k Hi Hj.
    unfold ChatView.keys in Hi, Hj. rewrite list_lookup_imap in Hi, Hj.
    destruct (msgs !! i) as [x|] eqn:Hx; [|done].
    destruct (msgs !! j) as [y|] eqn:Hy; [|done].
    simpl in Hi, Hj. injection Hi as Hi. injection Hj as Hj.
    destruct k as [z|n].
    + apply (NoDup_omap_lookup ChatView.truthy_id msgs H i j x y z); try done.
      * by apply (key_id i).
      * by apply (key_id j).
    + apply key_temp in Hi, Hj. congruence.
Qed.

Lemma run_yields evs s :
  ChatView.run (map ChatView.Yield evs) s = Chat.consume evs s.
Proof.
  revert s. induction evs as [|ev evs IH]; intros s; [done|]. simpl. apply IH.
Qed.

(** X15: when the history request is fulfilled while a turn is streaming,
    [setMessages] replaces the list, the two messages of the exchange
    included, and the tokens that follow are appended to the last message
    of the loaded history when that is an assistant message. *)
Theorem history_replaces_streaming_turn :
  forall (p : Chat.State) (d : ChatView.HistoryData)
         (pre : list ChatStore.ChatMsg) (m : ChatStore.ChatMsg)
         (evs : list StreamEvent),
    JSString.trim (Chat.input p) ≠ [] -> Chat.isSending p = false ->
    ChatView.h_messages d = pre ++ [m] ->
    ChatStore.role m = ChatStore.assistant ->
    Forall (fun ev => Event.type ev = s_token) evs ->
    ChatView.run (ChatView.HistorySettles (history_ok d) :: map ChatView.Yield evs)
      (store_after_submit p) =
      {| ChatStore.messages :=
           pre ++ [ChatStore.with_content m (ChatStore.content m ++ concat (contents evs))];
         ChatStore.isLoading := ChatStore.isLoading (Chat.store p);
         ChatStore.hasMore := ChatView.has_more d |}.
Proof.
  intros p d pre m evs Ht Hs Hd Hr Htok.
  unfold store_after_submit. rewrite handleSend_sync_accepts by done.
  cbn [ChatView.run fold_left ChatView.step ChatView.on_history history_ok
       ChatView.h_ok ChatView.h_data Chat.store].
  fold (ChatView.run (map ChatView.Yield evs)). rewrite run_yields.
  rewrite (consume_tokens evs _ pre m); [done| |done|done].
  simpl. exact Hd.
Qed.

Lemma history_replaces_streaming_turn_witness :
  ChatView.run
    (ChatView.HistorySettles (history_ok history_data)
     :: map ChatView.Yield [token (js "a"); token (js "b")])
    (store_after_submit (chat_page [] "hi")) =
    {| ChatStore.messages :=
         [Chat.user_message (js "old q")]
         ++ [ChatStore.with_content (answer 3 "old a")
               (ChatStore.content (answer 3 "old a")
                ++ concat (contents [token (js "a"); token (js "b")]))];
       ChatStore.isLoading := ChatStore.isLoading (Chat.store (chat_page [] "hi"));
       ChatStore.hasMore := ChatView.has_more history_data |}.
Proof.
  apply (history_replaces_streaming_turn (chat_page [] "hi") history_data
           [Chat.user_message (js "old q")] (answer 3 "old a")
           [token (js "a"); token (js "b")]).
  - vm_compute. discriminate.
  - reflexivity.
  - reflexivity.
  - reflexivity.
  - repeat constructor.
Defined.

(** ** api/client.ts: more on the reader *)
Section MoreReaderFacts.
Import JSString Client.
Context {T : Type} (JSON_parse : jsstring -> option T).

Lemma split_no_newline l : LF ∉ l -> split LF l = [l].
Proof.
  induction l as [|c l IH]; intros Hl; [done|].
  apply not_elem_of_cons in Hl as [Hc Hl].
  rewrite split_cons_ne, IH; [done|done|].
  by apply N.eqb_neq.
Qed.

Lemma frames_of_text_open l : LF ∉ l -> frames_of_text JSON_parse l = [].
Proof.
  intros Hl. unfold frames_of_text, complete_lines. by rewrite split_no_newline.
Qed.
End MoreReaderFacts.

(** X16: what follows the last newline of a body is never parsed.  When
    the body closes, a last line that is not closed by a newline yields
    nothing, even if it is a well-formed frame. *)
Theorem apiStream_drops_unterminated_tail :
  forall (T : Type) (JSON_parse : jsstring -> option T) (rd : Client.ReadableStream)
         (text tail : jsstring),
    Client.body_text (Client.chunks rd) = text ++ tail ->
    Client.last_line text = [] ->
    JSString.LF ∉ tail ->
    fst (Client.apiStream JSON_parse (ok_response rd)) =
      Client.frames_of_text JSON_parse text.
Proof.
  intros T JSON_parse rd text tail Htext Hclosed Htail.
  rewrite apiStream_ok. simpl. rewrite Htext, frames_of_text_app, Hclosed.
  change ([] ++ tail) with tail.
  rewrite (frames_of_text_open JSON_parse tail) by done. apply app_nil_r.
Qed.

Lemma apiStream_drops_unterminated_tail_witness :
  fst (Client.apiStream JSON.parse (ok_response unterminated_tail)) =
    Client.frames_of_text JSON.parse
      (jq "data: {'type':'token','content':'a'}" ++ [JSString.LF]).
Proof.
  apply (apiStream_drops_unterminated_tail JSON.value JSON.parse unterminated_tail
           (jq "data: {'type':'token','content':'a'}" ++ [JSString.LF])
           (jq "data: {'type':'done','message_id':7}")).
  - vm_compute. reflexivity.
  - vm_compute. reflexivity.
  - refine (bool_decide_unpack _ _). vm_compute. exact I.
Defined.

(** X17: a line that does not start with the six units of "data: " is
    ignored, whatever it holds: the reader yields what the lines before it
    yield followed by what the lines after it yield. *)
Theorem apiStream_ignores_unmarked_line :
  forall (T : Type) (JSON_parse : jsstring -> option T) (rd : Client.ReadableStream)
         (before other after : jsstring),
    Client.body_text (Client.chunks rd) = before ++ other ++ JSString.LF :: after ->
    Client.last_line before = [] ->
    JSString.LF ∉ other ->
    JSString.startsWith Client.data_prefix other = false ->
    fst (Client.apiStream JSON_parse (ok_response rd)) =
      Client.frames_of_text JSON_parse before ++ Client.frames_of_text JSON_parse after.
Proof.
  intros T JSON_parse rd before other after Htext Hbefore Hother Hpre.
  rewrite apiStream_ok. simpl. rewrite Htext.
  rewrite frames_of_text_app, Hbefore. simpl.
  rewrite frames_of_text_line by done.
  unfold Client.on_line. by rewrite Hpre.
Qed.

Lemma apiStream_ignores_unmarked_line_witness :
  fst (Client.apiStream JSON.parse (ok_response unmarked_lines)) =
    Client.frames_of_text JSON.parse
      (jq "data: {'type':'token','content':'a'}" ++ [JSString.LF])
    ++ Client.frames_of_text JSON.parse
         (jq "data: {'type':'done','message_id':7}" ++ [JSString.LF]).
Proof.
  apply (apiStream_ignores_unmarked_line JSON.value JSON.parse unmarked_lines
           (jq "data: {'type':'token','content':'a'}" ++ [JSString.LF])
           (jq "data:{'type':'token','content':'b'}")).
  - vm_compute. reflexivity.
  - vm_compute. reflexivity.
  - refine (bool_decide_unpack _ _). vm_compute. exact I.
  - vm_compute. reflexivity.
Defined.

(** ** api/client.ts: the calls and the thrown errors *)
Section ApiFacts.
Import Api.

Lemma header_names_differ : h_authorization ≠ h_content_type.
Proof. discriminate. Qed.

Lemma truthy_or_value a b : truthy b = true -> truthy (or_value a b) = true.
Proof.
  intros Hb. unfold or_value. destruct a as [v|]; [|done].
  by destruct (truthy v) eqn:E.
Qed.


Lemma get_Null k : JSON.get k JSON.Null = None.
Proof. done. Qed.
End ApiFacts.

(** X18: the headers of the two calls.  [apiFetch] sends the headers of
    the caller, with "Content-Type: application/json" when the caller
    gives no content type, and with "Authorization: Bearer <token>" in
    place of any authorization of the caller whenever a token that is not
    empty is held; the url, method and body are the caller's.
    [apiStream] sends the content type, the same authorization, and no
    other header. *)
Theorem api_call_headers :
  forall (_token : option jsstring) (path body_text : jsstring)
         (options : Api.RequestInit) (k : jsstring),
    Api.url (Api.apiFetch_call _token path options) = Api.BASE_URL ++ path
    /\ Api.method (Api.init (Api.apiFetch_call _token path options)) = Api.method options
    /\ Api.body (Api.init (Api.apiFetch_call _token path options)) = Api.body options
    /\ Api.headers (Api.init (Api.apiFetch_call _token path options)) !! k =
         (if decide (k = Api.h_authorization) then
            match Api.held _token with
            | Some t => Some (Api.bearer ++ t)
            | None => Api.headers options !! k
            end
          else if decide (k = Api.h_content_type) then
            Some (default Api.application_json (Api.headers options !! k))
          else Api.headers options !! k)
    /\ Api.headers (Api.init (Api.apiStream_call _token path body_text)) !! k =
         (if decide (k = Api.h_authorization) then
            (fun t => Api.bearer ++ t) <$> Api.held _token
          else if decide (k = Api.h_content_type) then Some Api.application_json
          else None).
Proof.
  intros _token path body_text options k.
  split; [done|]. split; [done|]. split; [done|].
  unfold Api.apiFetch_call, Api.apiStream_call, Api.with_token. simpl.
  pose proof header_names_differ as Hac.
  destruct (decide (k = Api.h_authorization)) as [->|Hk];
    [|destruct (decide (k = Api.h_content_type)) as [->|Hc]];
    destruct (Api.held _token) as [t|]; simpl;
    rewrite ?lookup_insert_eq, ?lookup_insert_ne, ?lookup_union,
      ?lookup_singleton_eq, ?lookup_singleton_ne by congruence;
    repeat match goal with
           | |- context [Api.headers options !! ?x] =>
               destruct (Api.headers options !! x)
           end; done.
Qed.

(** X19: on a response that is not ok, [apiFetch] always rejects.  It
    throws a TypeError exactly when the body is the JSON value null;
    otherwise it throws the object with the status of the response, a code
    that is truthy (the one of the server, or "UNKNOWN"), and a message
    that is truthy unless the status text is empty. *)
Theorem apiFetch_rejects_with_code :
  forall (fetch : Api.FetchCall -> Api.Settled Api.HttpResponse)
         (_token : option jsstring) (path : jsstring) (options : Api.RequestInit)
         (res : Api.HttpResponse),
    fetch (Api.apiFetch_call _token path options) = Api.Fulfilled res ->
    Api.ok res = false ->
    Api.apiFetch fetch _token path options = Api.RejectedWith (Api.apiFetch_throws res)
    /\ (Api.apiFetch_throws res = Api.Native Api.TypeError
        <-> Api.json res = Some JSON.Null)
    /\ forall (st : Z) (c m : JSON.value),
         Api.apiFetch_throws res = Api.ApiError st c m ->
         st = Api.status res
         /\ Api.truthy c = true
         /\ (Api.statusText res ≠ [] -> Api.truthy m = true).
Proof.
  intros fetch _token path options res Hfetch Hok.
  unfold Api.apiFetch. rewrite Hfetch, Hok. simpl. split; [done|].
  unfold Api.apiFetch_throws, Api.error_body.
  destruct (Api.json res) as [[|b0|mant ex|str|arr|obj]|]; simpl;
    (split; [split; [try discriminate; try done|try discriminate; try done]|]);
    intros st c m Heq; try discriminate Heq;
    injection Heq as <- <- <-;
    (split; [done|split; [by apply truthy_or_value|]]);
    intros Hst; apply truthy_or_value; simpl; by destruct (Api.statusText res).
Qed.

Lemma apiFetch_rejects_with_code_witness :
  Api.apiFetch (answers (forbidden (Some (error_object "LIMIT" "Too many"))))
    None (js "/me") Api.no_options =
    Api.RejectedWith (Api.apiFetch_throws (forbidden (Some (error_object "LIMIT" "Too many"))))
  /\ Api.apiFetch_throws (forbidden (Some (error_object "LIMIT" "Too many"))) =
       Api.ApiError 403 (JSON.Str (js "LIMIT")) (JSON.Str (js "Too many")).
Proof.
  split; [|reflexivity].
  apply (apiFetch_rejects_with_code
           (answers (forbidden (Some (error_object "LIMIT" "Too many"))))
           None (js "/me") Api.no_options
           (forbidden (Some (error_object "LIMIT" "Too many")))); reflexivity.
Defined.



(** ** store/auth.ts and the gate of App.tsx *)
Section AuthFacts.
Import Api AuthStore AuthGate.
Variable native_message : NativeError -> jsstring.

Lemma granted_Some r d :
  granted r = Some d ->
  r = Fulfilled {| res_ok := true; data := Some d |}.
Proof.
  destruct r as [[o dt]|err]; simpl; [|done].
  destruct o; [|done]. by intros ->.
Qed.

Lemma login_granted r w d :
  granted r = Some d ->
  login native_message r w =
    {| state := {| user := Some (data_user d); isLoading := false;
                   error := None; errorCode := None |};
       _token := Some (token d) |}.
Proof. intros ->%granted_Some. done. Qed.

Lemma login_refused r w :
  granted r = None ->
  exists e c,
    login native_message r w =
      {| state := {| user := user (state w); isLoading := false;
                     error := Some e; errorCode := Some c |};
         _token := _token w |}
    /\ truthy e = true /\ truthy c = true
    /\ (forall err, r = RejectedWith err ->
                    c = or_value (err_code err) (JSON.Str s_AUTH_FAILED)).
Proof.
  destruct r as [[o dt]|err]; simpl.
  - intros H. exists (JSON.Str s_Auth_failed), (JSON.Str s_AUTH_FAILED).
    unfold login. simpl. destruct o, dt; try done.
  - intros _. eexists _, _. unfold login. simpl. split; [reflexivity|].
    split; [by apply truthy_or_value|]. split; [by apply truthy_or_value|].
    by intros ? [= ->].
Qed.

(** After a rejection the gate shows the onboarding screen exactly when
    the caught error carries the onboarding code. *)
Lemma gate_after_rejection err w :
  AuthGate.AuthGate (state (login native_message (RejectedWith err) w)) = Onboarding
  <-> err_code err = Some (JSON.Str s_ONBOARDING_REQUIRED).
Proof.
  destruct (login_refused (RejectedWith err) w eq_refl)
    as (e & c & -> & He & Hc & Hcode).
  rewrite (Hcode err eq_refl). unfold AuthGate.AuthGate.
  cbn [state isLoading errorCode error truthy_opt].
  rewrite He. cbn [orb].
  assert (Hstr : is_string s_ONBOARDING_REQUIRED
                   (Some (or_value (err_code err) (JSON.Str s_AUTH_FAILED))) = true
                 <-> err_code err = Some (JSON.Str s_ONBOARDING_REQUIRED)).
  { destruct (err_code err) as [v|]; simpl; [|done].
    destruct (truthy v) eqn:Htv.
    - destruct v as [|b0|mant ex|str|arr|obj]; simpl; try done.
      rewrite bool_decide_eq_true. split; congruence.
    - split; [done|]. intros [= ->]. discriminate Htv. }
  destruct (is_string _ _).
  - split; [intros _; by apply Hstr|done].
  - split; [done|]. intros H. apply Hstr in H. discriminate H.
Qed.
End AuthFacts.

(** X21: [login] always ends with the loading flag cleared.  A fulfilled
    response that is ok and has data sets the user and the token and
    leaves no error; every other outcome keeps the user and the token
    that were there and sets an error and an error code that are both
    truthy. *)
Theorem login_outcomes :
  forall (native_message : Api.NativeError -> jsstring)
         (r : Api.Settled AuthStore.AuthResponse) (w : AuthStore.World),
    AuthStore.isLoading (AuthStore.state (AuthStore.login native_message r w)) = false
    /\ (forall d, granted r = Some d ->
          AuthStore.login native_message r w =
            {| AuthStore.state :=
                 {| AuthStore.user := Some (AuthStore.data_user d);
                    AuthStore.isLoading := false;
                    AuthStore.error := None; AuthStore.errorCode := None |};
               AuthStore._token := Some (AuthStore.token d) |})
    /\ (granted r = None ->
          AuthStore.user (AuthStore.state (AuthStore.login native_message r w)) =
            AuthStore.user (AuthStore.state w)
          /\ AuthStore._token (AuthStore.login native_message r w) = AuthStore._token w
          /\ AuthGate.truthy_opt
               (AuthStore.error (AuthStore.state (AuthStore.login native_message r w))) = true
          /\ AuthGate.truthy_opt
               (AuthStore.errorCode (AuthStore.state (AuthStore.login native_message r w)))
             = true).
Proof.
  intros native_message r w.
  destruct (granted r) as [d|] eqn:Hg.
  - rewrite (login_granted native_message r w d Hg). split; [done|].
    split; [by intros ? [= <-]|done].
  - destruct (login_refused native_message r w Hg) as (e & c & -> & He & Hc & _).
    split; [done|]. split; [done|]. by intros _.
Qed.

Lemma login_outcomes_witness :
  AuthStore.login native_text auth_granted fresh_world =
    {| AuthStore.state :=
         {| AuthStore.user := Some sample_user; AuthStore.isLoading := false;
            AuthStore.error := None; AuthStore.errorCode := None |};
       AuthStore._token := Some (js "t1") |}
  /\ AuthStore._token
       (AuthStore.login native_text (Api.RejectedWith (Api.Native Api.TypeError)) signed_in)
     = AuthStore._token signed_in.
Proof.
  split.
  - apply (proj1 (proj2 (login_outcomes native_text auth_granted fresh_world))
             {| AuthStore.token := js "t1"; AuthStore.data_user := sample_user |}).
    reflexivity.
  - apply (proj2 (proj2 (login_outcomes native_text
                           (Api.RejectedWith (Api.Native Api.TypeError)) signed_in))
             eq_refl).
Defined.

(** X22: once [login] has ended, the gate shows the pages exactly when
    the authentication was granted, from whatever state the login started;
    after a rejection it shows the onboarding screen exactly when the
    caught error carries the code "ONBOARDING_REQUIRED". *)
Theorem gate_after_login :
  forall (native_message : Api.NativeError -> jsstring)
         (r : Api.Settled AuthStore.AuthResponse) (w : AuthStore.World),
    (AuthGate.AuthGate (AuthStore.state (AuthStore.login native_message r w))
       = AuthGate.Children
     <-> is_Some (granted r))
    /\ forall err : Api.Thrown,
         r = Api.RejectedWith err ->
         (AuthGate.AuthGate (AuthStore.state (AuthStore.login native_message r w))
            = AuthGate.Onboarding
          <-> AuthStore.err_code err =
                Some (JSON.Str AuthGate.s_ONBOARDING_REQUIRED)).
Proof.
  intros native_message r w. split.
  - destruct (granted r) as [d|] eqn:Hg.
    + rewrite (login_granted native_message r w d Hg). split; [by eexists|done].
    + destruct (login_refused native_message r w Hg) as (e & c & -> & He & Hc & _).
      split; [|by intros [? ?]].
      unfold AuthGate.AuthGate.
      cbn [AuthStore.state AuthStore.isLoading AuthStore.errorCode AuthStore.error
           AuthGate.truthy_opt].
      rewrite He. cbn [orb].
      by destruct (AuthGate.is_string AuthGate.s_ONBOARDING_REQUIRED (Some c)).
  - intros err ->. apply gate_after_rejection.
Qed.

Lemma gate_after_login_witness :
  AuthGate.AuthGate
    (AuthStore.state
       (AuthStore.login native_text
          (Api.RejectedWith
             (Api.ApiError 403 (JSON.Str AuthGate.s_ONBOARDING_REQUIRED) (JSON.Str (js "x"))))
          signed_in))
  = AuthGate.Onboarding.
Proof.
  apply (proj2 (gate_after_login native_text
                  (Api.RejectedWith
                     (Api.ApiError 403 (JSON.Str AuthGate.s_ONBOARDING_REQUIRED)
                        (JSON.Str (js "x"))))
                  signed_in)
           (Api.ApiError 403 (JSON.Str AuthGate.s_ONBOARDING_REQUIRED) (JSON.Str (js "x")))
           eq_refl).
  reflexivity.
Defined.

(** X23: when the authentication request is answered with a status that
    is not ok and a body whose [detail.error.code] is
    "ONBOARDING_REQUIRED", [authenticate] throws that code, [login] stores
    it, and the gate shows the onboarding screen, from whatever state the
    login started. *)
Theorem onboarding_required_reaches_gate :
  forall (fetch : Api.FetchCall -> Api.Settled Api.HttpResponse)
         (initData : jsstring) (view : JSON.value -> AuthStore.AuthResponse)
         (native_message : Api.NativeError -> jsstring) (w : AuthStore.World)
         (res : Api.HttpResponse) (d e : JSON.value),
    fetch (AuthStore.authenticate_call initData) = Api.Fulfilled res ->
    Api.ok res = false ->
    JSON.get Api.s_detail (Api.error_body res) = Some d ->
    JSON.get s_error d = Some e ->
    JSON.get Api.s_code e = Some (JSON.Str AuthGate.s_ONBOARDING_REQUIRED) ->
    AuthGate.AuthGate
      (AuthStore.state
         (AuthStore.login native_message
            (settled_map view (AuthStore.authenticate fetch initData)) w))
    = AuthGate.Onboarding.
Proof.
  intros fetch initData view native_message w res d e Hfetch Hok Hd He Hc.
  unfold AuthStore.authenticate. rewrite Hfetch, Hok. simpl.
  apply gate_after_rejection.
  unfold AuthStore.authenticate_throws.
  destruct (Api.error_body res) as [|b0|mant ex|str|arr|obj] eqn:Hb;
    try discriminate Hd.
  rewrite Hd. unfold AuthStore.err_code, Api.error_field, Api.opt_get.
  change (Some d ≫= JSON.get s_error) with (JSON.get s_error d). rewrite He.
  change (Some e ≫= JSON.get Api.s_code) with (JSON.get Api.s_code e). by rewrite Hc.
Qed.

Lemma onboarding_required_reaches_gate_witness :
  AuthGate.AuthGate
    (AuthStore.state
       (AuthStore.login native_text
          (settled_map no_grant
             (AuthStore.authenticate (answers (forbidden (Some onboarding_body)))
                (js "query_id=1")))
          fresh_world))
  = AuthGate.Onboarding.
Proof.
  apply (onboarding_required_reaches_gate
           (answers (forbidden (Some onboarding_body))) (js "query_id=1") no_grant
           native_text fresh_world (forbidden (Some onboarding_body))
           (error_object "ONBOARDING_REQUIRED" "Complete onboarding first")
           (JSON.Obj [(Api.s_code, JSON.Str (js "ONBOARDING_REQUIRED"));
                      (Api.s_message, JSON.Str (js "Complete onboarding first"))]));
    reflexivity.
Defined.

(** X24: after [logout] no token is held and no user is stored:
    [apiFetch] sends the headers of the caller and the default content
    type without an authorization of its own, and once the loading flag is
    clear the gate shows the login failure with its fallback text. *)
Theorem logout_clears_session :
  forall (w : AuthStore.World) (path : jsstring) (options : Api.RequestInit),
    Api.getToken (AuthStore._token (AuthStore.logout w)) = None
    /\ AuthStore.user (AuthStore.state (AuthStore.logout w)) = None
    /\ Api.headers (Api.init (Api.apiFetch_call (AuthStore._token (AuthStore.logout w))
                                path options)) =
         Api.headers options ∪ {[Api.h_content_type := Api.application_json]}
    /\ (AuthStore.isLoading (AuthStore.state w) = false ->
        AuthGate.AuthGate (AuthStore.state (AuthStore.logout w)) =
          AuthGate.LoginFailed (JSON.Str AuthGate.open_via_telegram)).
Proof.
  intros w path options. split; [done|]. split; [done|]. split; [done|].
  intros Hl. unfold AuthGate.AuthGate, AuthStore.logout. simpl. by rewrite Hl.
Qed.

Lemma logout_clears_session_witness :
  AuthGate.AuthGate (AuthStore.state (AuthStore.logout signed_in)) =
    AuthGate.LoginFailed (JSON.Str AuthGate.open_via_telegram).
Proof.
  apply (logout_clears_session signed_in (js "/me") Api.no_options). reflexivity.
Defined.

Section UserFacts.
Import AuthStore.

Lemma default_default {A} (x : A) (o : option A) :
  default (default x o) o = default x o.
Proof. by destruct o. Qed.

Lemma merge_merge u d : merge (merge u d) d = merge u d.
Proof. unfold merge. simpl. by rewrite !default_default. Qed.
End UserFacts.

(** X25: [updateUser] never creates a user: without one it changes
    nothing.  Applying the same data twice is applying it once, and no
    update changes what the gate shows. *)
Theorem updateUser_keeps_gate :
  forall (d : AuthStore.PartialUserData) (s : AuthStore.AuthState),
    (AuthStore.user s = None -> AuthStore.updateUser d s = s)
    /\ AuthStore.updateUser d (AuthStore.updateUser d s) = AuthStore.updateUser d s
    /\ AuthGate.AuthGate (AuthStore.updateUser d s) = AuthGate.AuthGate s.
Proof.
  intros d s. split; [|split].
  - intros Hu. unfold AuthStore.updateUser. rewrite Hu. destruct s. simpl in Hu.
    by rewrite Hu.
  - unfold AuthStore.updateUser. simpl. destruct (AuthStore.user s); [|done].
    by rewrite merge_merge.
  - unfold AuthGate.AuthGate, AuthStore.updateUser. simpl.
    by destruct (AuthStore.user s).
Qed.

Lemma updateUser_keeps_gate_witness :
  AuthStore.updateUser level_up AuthStore.initial = AuthStore.initial.
Proof.
  apply (proj1 (updateUser_keeps_gate level_up AuthStore.initial)). reflexivity.
Defined.

(** X26: [handleSubmit] of the task page.  At its guard (no text once
    trimmed, a submission in flight, or no route id) it changes nothing
    and issues no request.  Otherwise it posts the text as typed once and
    ends with the flag cleared and the text kept.  A submission that is
    rejected, or fulfilled without ok and data, leaves the user, the task
    and the review as they were.  A fulfilled one stores the task and the
    review, and when the task earned a truthy number of points and a user
    is stored, that user gains exactly these points and nothing else of
    the auth store changes. *)
Theorem handleSubmit_outcomes :
  forall (r : Api.Settled TaskDetail.SubmitResponse) (auth : AuthStore.AuthState)
         (p : TaskDetail.State),
    (TaskDetail.rejects p = true -> TaskDetail.handleSubmit r auth p = (auth, p, []))
    /\ (TaskDetail.rejects p = false ->
        exists auth' ut rv,
          TaskDetail.handleSubmit r auth p =
            (auth',
             {| TaskDetail.id := TaskDetail.id p; TaskDetail.userTask := ut;
                TaskDetail.submission := TaskDetail.submission p;
                TaskDetail.isSubmitting := false; TaskDetail.review := rv |},
             [TaskDetail.SubmitTask (default [] (TaskDetail.id p))
                (TaskDetail.submission p)])
          /\ (submitted r = None ->
              auth' = auth /\ ut = TaskDetail.userTask p /\ rv = TaskDetail.review p)
          /\ (forall d, submitted r = Some d ->
                ut = TaskDetail.user_task d /\ rv = TaskDetail.d_review d
                /\ (forall e u,
                      TaskDetail.earned d = Some e -> AuthStore.user auth = Some u ->
                      auth' =
                        {| AuthStore.user := Some (with_xp u (AuthStore.xp u + e));
                           AuthStore.isLoading := AuthStore.isLoading auth;
                           AuthStore.error := AuthStore.error auth;
                           AuthStore.errorCode := AuthStore.errorCode auth |})
                /\ (TaskDetail.earned d = None \/ AuthStore.user auth = None ->
                    auth' = auth))).
Proof.
  intros r auth p. split.
  - intros Hrej. unfold TaskDetail.handleSubmit. by rewrite Hrej.
  - intros Hrej. unfold TaskDetail.handleSubmit. rewrite Hrej.
    destruct r as [[o dt]|err]; simpl.
    + destruct o, dt as [d|]; simpl.
      * eexists _, _, _. split; [reflexivity|]. split; [done|].
        intros d' [= <-]. split; [done|]. split; [done|]. split.
        -- intros e u He Hu. rewrite He, Hu.
           unfold AuthStore.updateUser. by rewrite Hu.
        -- intros [He|Hu]; [by rewrite He|].
           rewrite Hu. by destruct (TaskDetail.earned d).
      * eexists _, _, _. split; [reflexivity|]. by split.
      * eexists _, _, _. split; [reflexivity|]. by split.
      * eexists _, _, _. split; [reflexivity|]. by split.
    + eexists _, _, _. split; [reflexivity|]. by split.
Qed.

Lemma handleSubmit_outcomes_witness :
  exists auth' ut rv,
    TaskDetail.handleSubmit submit_ok (AuthStore.state signed_in) task_page =
      (auth',
       {| TaskDetail.id := TaskDetail.id task_page; TaskDetail.userTask := ut;
          TaskDetail.submission := TaskDetail.submission task_page;
          TaskDetail.isSubmitting := false; TaskDetail.review := rv |},
       [TaskDetail.SubmitTask (default [] (TaskDetail.id task_page))
          (TaskDetail.submission task_page)])
    /\ AuthStore.user auth' = Some (with_xp sample_user 65).
Proof.
  destruct (proj2 (handleSubmit_outcomes submit_ok (AuthStore.state signed_in) task_page)
              eq_refl) as (auth' & ut & rv & Hrun & _ & Hok).
  exists auth', ut, rv. split; [exact Hrun|].
  destruct (Hok review_data eq_refl) as (_ & _ & Hxp & _).
  rewrite (Hxp 25%Z sample_user eq_refl eq_refl). reflexivity.
Defined.

(** ** components/BottomNav.tsx *)
Section NavFacts.
Import JSString BottomNav.

Lemma startsWith_cons a p b s :
  startsWith (a :: p) (b :: s) = true -> a = b /\ startsWith p s = true.
Proof.
  simpl. intros [Hab Hp]%andb_true_iff. split; [by apply N.eqb_eq|done].
Qed.

Lemma startsWith_nil_r a p : startsWith (a :: p) [] = false.
Proof. done. Qed.
End NavFacts.

(** X27: whatever the path of the location, at most one item of the
    navigation bar is shown as active. *)
Theorem at_most_one_nav_item_active :
  forall (pathname a b : jsstring),
    a ∈ BottomNav.NAV_ITEMS -> b ∈ BottomNav.NAV_ITEMS ->
    BottomNav.isActive pathname a = true ->
    BottomNav.isActive pathname b = true ->
    a = b.
Proof.
  intros pathname a b Ha Hb Hact Hbct.
  unfold BottomNav.NAV_ITEMS in Ha, Hb.
  repeat (apply elem_of_cons in Ha as [->|Ha]);
    try (by apply elem_of_nil in Ha);
    repeat (apply elem_of_cons in Hb as [->|Hb]);
    try (by apply elem_of_nil in Hb);
    try reflexivity; exfalso;
    unfold BottomNav.isActive in Hact, Hbct;
    repeat match goal with
           | H : context [bool_decide (?x = BottomNav.root)] |- _ =>
               first [ rewrite (bool_decide_eq_true_2 (x = BottomNav.root)) in H by reflexivity
                     | rewrite (bool_decide_eq_false_2 (x = BottomNav.root)) in H by discriminate ]
           end;
    repeat match goal with
           | H : bool_decide (pathname = _) = true |- _ =>
               apply bool_decide_eq_true_1 in H; subst pathname
           end;
    try discriminate;
    destruct pathname as [|x [|y r]]; try discriminate;
    apply startsWith_cons in Hact as [_ Hact];
    apply startsWith_cons in Hbct as [_ Hbct];
    try discriminate;
    apply startsWith_cons in Hact as [<- _];
    apply startsWith_cons in Hbct as [Hxy _]; discriminate Hxy.
Qed.

Lemma at_most_one_nav_item_active_witness :
  js "/chat" = js "/chat".
Proof.
  apply (at_most_one_nav_item_active (js "/chat/42") (js "/chat") (js "/chat")).
  - refine (bool_decide_unpack _ _). vm_compute. exact I.
  - refine (bool_decide_unpack _ _). vm_compute. exact I.
  - reflexivity.
  - reflexivity.
Defined.

(** X28: the helpers of the host.  [isTelegramWebApp()] is true exactly
    when [getInitData()] is not empty, and that string is what
    [authenticate] sends in the header "X-Telegram-Init-Data".  Outside
    Telegram the init data is empty, there is no user, and [ready] and
    [haptic] make no call into the SDK; inside, [ready] makes its two
    calls and [haptic] exactly one. *)
Theorem telegram_helpers :
  forall (getWebApp : option Telegram.WebApp) (type : Telegram.HapticType),
    (Telegram.isTelegramWebApp getWebApp = true <-> Telegram.getInitData getWebApp ≠ [])
    /\ Api.headers (Api.init (AuthStore.authenticate_call (Telegram.getInitData getWebApp)))
         !! AuthStore.h_init_data = Some (Telegram.getInitData getWebApp)
    /\ (getWebApp = None ->
        Telegram.getInitData getWebApp = []
        /\ Telegram.getTelegramUser getWebApp = None
        /\ Telegram.ready getWebApp = []
        /\ Telegram.haptic getWebApp type = [])
    /\ (is_Some getWebApp ->
        Telegram.ready getWebApp = [Telegram.Ready; Telegram.Expand]
        /\ exists call, Telegram.haptic getWebApp type = [call]).
Proof.
  intros getWebApp type. split; [|split; [|split]].
  - unfold Telegram.isTelegramWebApp, Telegram.getInitData.
    destruct getWebApp as [wa|]; [|done].
    destruct (Telegram.initData wa); simpl; split; done.
  - unfold AuthStore.authenticate_call. simpl. apply lookup_insert_eq.
  - by intros ->.
  - intros [wa ->]. split; [done|]. simpl.
    destruct (Telegram.is_impact type); eauto.
Qed.

Lemma telegram_helpers_witness :
  (Telegram.getInitData None = []
   /\ Telegram.getTelegramUser None = None
   /\ Telegram.ready None = []
   /\ Telegram.haptic None Telegram.success = [])
  /\ (Telegram.ready (Some sample_webapp) = [Telegram.Ready; Telegram.Expand]
      /\ exists call, Telegram.haptic (Some sample_webapp) Telegram.success = [call]).
Proof.
  split.
  - apply (proj1 (proj2 (proj2 (telegram_helpers None Telegram.success)))).
    reflexivity.
  - apply (proj2 (proj2 (proj2 (telegram_helpers (Some sample_webapp) Telegram.success)))).
    by eexists.
Defined.
